(** * The "invisible man" camera pipeline: gesture evaluator, capture state
      machine, camera service and compositor.

    Shallow embedding of the TypeScript sources:
    - [checkFingerOnHead], [hasPeople], [MediaPipeService]  (services/mediapipe)
    - [App]: [wrappedOnResults] and the three effects        (App.tsx)
    - [FullScreenQuad]'s [useFrame] callback                 (InvisibleManExperience.tsx)
    - the fragment shader                                    (LiquidShader.ts)

    JavaScript and GLSL numbers are modelled as real numbers ([R]) where
    the property at hand is one of the arithmetic the code writes down and
    holds with or without rounding.  Where rounding decides (the
    comparison of a distance with the threshold, the step-by-step growth
    of the reveal factor) the same code is modelled on binary64 numbers in
    the module [Binary64]. *)

From Stdlib Require Import Reals Lra Lia List Bool Arith String.
From Stdlib Require Floats QArith.
Import ListNotations.

Open Scope R_scope.

(** ** JavaScript completions

    A JavaScript expression either yields a value or throws.  The only
    throw the modelled code can meet is the [TypeError] of reading a
    property of [undefined] or [null]. *)

Module Js.

Inductive completion (A : Type) : Type :=
| Normal (a : A)
| TypeError.
Arguments Normal {A} a.
Arguments TypeError {A}.

Definition bind {A B} (m : completion A) (k : A -> completion B) : completion B :=
  match m with
  | Normal a => k a
  | TypeError => TypeError
  end.

Definition ret {A} (a : A) : completion A := Normal a.

(** [a && b] and [a || b] on booleans, with JavaScript's short circuit:
    the right operand is evaluated only when needed. *)
Definition and_then (a b : completion bool) : completion bool :=
  bind a (fun va => if va then b else ret false).

Definition or_else (a b : completion bool) : completion bool :=
  bind a (fun va => if va then ret true else b).

(** Truthiness of a possibly [undefined] reference. *)
Definition truthy {A} (v : option A) : bool :=
  match v with Some _ => true | None => false end.

(** [v.f] : property read; throws on [undefined]. *)
Definition prop {A B} (v : option A) (f : A -> B) : completion B :=
  match v with
  | Some a => Normal (f a)
  | None => TypeError
  end.

(** [a[i]] on an array: [undefined] out of range, throws when the array
    reference itself is [undefined]. *)
Definition index {A} (a : option (list (option A))) (i : nat)
  : completion (option A) :=
  match a with
  | Some l => Normal (match nth_error l i with
                      | Some v => v
                      | None => None
                      end)
  | None => TypeError
  end.

Definition Rltb (a b : R) : bool := if Rlt_dec a b then true else false.

End Js.

Declare Scope js_scope.
Delimit Scope js_scope with js.
Notation "x <- m ;; k" := (Js.bind m (fun x => k))
  (at level 61, m at next level, right associativity) : js_scope.
Notation "a &&& b" := (Js.and_then a b)
  (at level 40, left associativity) : js_scope.
Notation "a ||| b" := (Js.or_else a b)
  (at level 50, left associativity) : js_scope.

(** ** services/mediapipe: landmarks and the gesture evaluator *)

Module Landmark.
(** A pose landmark; only the fields the code reads. *)
Record t : Type := mk { x : R; y : R }.
End Landmark.

(** A landmark array as the callback hands it over: the reference may be
    [undefined], and so may any entry. *)
Definition Landmarks : Type := option (list (option Landmark.t)).

Module POSE_LANDMARKS.
Definition NOSE : nat := 0.
Definition LEFT_INDEX : nat := 19.
Definition RIGHT_INDEX : nat := 20.
End POSE_LANDMARKS.

Definition getDistance (p1 p2 : Landmark.t) : R :=
  sqrt ((Landmark.x p1 - Landmark.x p2) ^ 2 + (Landmark.y p1 - Landmark.y p2) ^ 2).

Definition HEAD_PROXIMITY_THRESHOLD : R := 0.2.

Section GestureEvaluator.
Import Js.
Local Open Scope js_scope.

(** [getDistance(a, b)] called on references: the body reads [.x] and
    [.y] of both. *)
Definition getDistance_js (p1 p2 : option Landmark.t) : completion R :=
  x1 <- prop p1 Landmark.x ;;
  x2 <- prop p2 Landmark.x ;;
  y1 <- prop p1 Landmark.y ;;
  y2 <- prop p2 Landmark.y ;;
  ret (sqrt ((x1 - x2) ^ 2 + (y1 - y2) ^ 2)).

Definition lt_js (a b : completion R) : completion bool :=
  va <- a ;; vb <- b ;; ret (Rltb va vb).

(** One hand: [getDistance(hand, nose) < T && hand.y < nose.y]. *)
Definition handOnHead (hand nose : option Landmark.t) : completion bool :=
  lt_js (getDistance_js hand nose) (ret HEAD_PROXIMITY_THRESHOLD)
  &&& lt_js (prop hand Landmark.y) (prop nose Landmark.y).

Definition checkFingerOnHead (landmarks : Landmarks) : completion bool :=
  (* if (!landmarks || landmarks.length === 0) return false; *)
  g <- (ret (negb (truthy landmarks))
        ||| (n <- prop landmarks (@List.length _) ;; ret (Nat.eqb n 0))) ;;
  if g then ret false else
  nose <- index landmarks POSE_LANDMARKS.NOSE ;;
  leftIndex <- index landmarks POSE_LANDMARKS.LEFT_INDEX ;;
  rightIndex <- index landmarks POSE_LANDMARKS.RIGHT_INDEX ;;
  (* if (!nose || !leftIndex || !rightIndex) return false; *)
  if negb (truthy nose) || negb (truthy leftIndex) || negb (truthy rightIndex)
  then ret false else
  leftHandOnHead <- handOnHead leftIndex nose ;;
  rightHandOnHead <- handOnHead rightIndex nose ;;
  ret (leftHandOnHead || rightHandOnHead).

(** [landmarks && landmarks.length > 0], as a boolean test. *)
Definition hasPeople (landmarks : Landmarks) : completion bool :=
  ret (truthy landmarks)
  &&& (n <- prop landmarks (@List.length _) ;; ret (Nat.ltb 0 n)).

End GestureEvaluator.

(** The entry of a landmark array at a body-part index, [None] when the
    array or the entry is missing. *)
Definition landmarkAt (landmarks : Landmarks) (i : nat) : option Landmark.t :=
  match landmarks with
  | Some l => match nth_error l i with Some v => v | None => None end
  | None => None
  end.

(** A hand is on the head: closer to the nose than the threshold, and
    above it in image space (smaller [y]). *)
Definition onHead (hand nose : Landmark.t) : Prop :=
  getDistance hand nose < 0.2 /\ Landmark.y hand < Landmark.y nose.


(** ** The DOM objects the pipeline shares *)

(** A camera stream: one flag per track, [true] while the track is live. *)
Definition MediaStream : Type := list bool.

(** [stream.getTracks().forEach(track => track.stop())] *)
Definition stopTracks (stream : MediaStream) : MediaStream :=
  map (fun _ => false) stream.

(** The hidden [<video>] element.  [srcObject] is an index into the
    streams the camera has handed out; [currentFrame] names the picture
    the element shows. *)
Record HTMLVideoElement : Type := mkVideo {
  srcObject : option nat;
  paused : bool;
  ended : bool;
  videoWidth : nat;
  videoHeight : nat;
  currentFrame : nat
}.

(** ** services/mediapipe: [MediaPipeService] *)

Module MediaPipeService.
Import Js.
Local Open Scope js_scope.

(** Where the asynchronous [initialize] is suspended. *)
Inductive InitPhase : Type :=
| NotCalled
| AwaitingStream      (* at [await getUserMedia(constraints)] *)
| AwaitingMetadata    (* at [await new Promise(...)] *)
| Resolved            (* the promise returned by [initialize] is resolved *)
| Rejected.           (* ... or rejected *)

(** Where the asynchronous [processVideo] is suspended. *)
Inductive LoopPhase : Type :=
| LoopIdle
| AwaitingSend.       (* at [await this.pose.send(...)] *)

(** The global [Pose] object: all the service observes of it. *)
Record Pose : Type := mkPose { closed : bool }.

(** The service's fields, followed by the part of the browser it acts on. *)
Record t : Type := mk {
  pose : option Pose;
  videoElement : option HTMLVideoElement;
  requestAnimationId : option nat;
  isStopped : bool;
  (* suspended continuations *)
  initPhase : InitPhase;
  loopPhase : LoopPhase;
  (* browser state *)
  streams : list MediaStream;   (* every stream [getUserMedia] delivered *)
  scheduled : list nat;         (* animation frames requested, not cancelled *)
  nextAnimationId : nat;        (* ids start at 1 *)
  framesSent : nat              (* calls of [pose.send] *)
}.

(** [new MediaPipeService(onResults)] in a fresh page. *)
Definition new : t :=
  mk None None None false NotCalled LoopIdle [] [] 1 0.

Definition set_pose v (s : t) : t :=
  mk v (videoElement s) (requestAnimationId s) (isStopped s) (initPhase s)
     (loopPhase s) (streams s) (scheduled s) (nextAnimationId s) (framesSent s).
Definition set_videoElement v (s : t) : t :=
  mk (pose s) v (requestAnimationId s) (isStopped s) (initPhase s)
     (loopPhase s) (streams s) (scheduled s) (nextAnimationId s) (framesSent s).
Definition set_requestAnimationId v (s : t) : t :=
  mk (pose s) (videoElement s) v (isStopped s) (initPhase s)
     (loopPhase s) (streams s) (scheduled s) (nextAnimationId s) (framesSent s).
Definition set_isStopped v (s : t) : t :=
  mk (pose s) (videoElement s) (requestAnimationId s) v (initPhase s)
     (loopPhase s) (streams s) (scheduled s) (nextAnimationId s) (framesSent s).
Definition set_initPhase v (s : t) : t :=
  mk (pose s) (videoElement s) (requestAnimationId s) (isStopped s) v
     (loopPhase s) (streams s) (scheduled s) (nextAnimationId s) (framesSent s).
Definition set_loopPhase v (s : t) : t :=
  mk (pose s) (videoElement s) (requestAnimationId s) (isStopped s) (initPhase s)
     v (streams s) (scheduled s) (nextAnimationId s) (framesSent s).
Definition set_streams v (s : t) : t :=
  mk (pose s) (videoElement s) (requestAnimationId s) (isStopped s) (initPhase s)
     (loopPhase s) v (scheduled s) (nextAnimationId s) (framesSent s).
Definition set_scheduled v (s : t) : t :=
  mk (pose s) (videoElement s) (requestAnimationId s) (isStopped s) (initPhase s)
     (loopPhase s) (streams s) v (nextAnimationId s) (framesSent s).
Definition set_nextAnimationId v (s : t) : t :=
  mk (pose s) (videoElement s) (requestAnimationId s) (isStopped s) (initPhase s)
     (loopPhase s) (streams s) (scheduled s) v (framesSent s).
Definition set_framesSent v (s : t) : t :=
  mk (pose s) (videoElement s) (requestAnimationId s) (isStopped s) (initPhase s)
     (loopPhase s) (streams s) (scheduled s) (nextAnimationId s) v.

Definition set_srcObject v (e : HTMLVideoElement) : HTMLVideoElement :=
  mkVideo v (paused e) (ended e) (videoWidth e) (videoHeight e) (currentFrame e).
Definition set_paused v (e : HTMLVideoElement) : HTMLVideoElement :=
  mkVideo (srcObject e) v (ended e) (videoWidth e) (videoHeight e) (currentFrame e).

(** Stop every track of the stream with the given index. *)
Fixpoint stopStreamAt (i : nat) (l : list MediaStream) : list MediaStream :=
  match l, i with
  | [], _ => []
  | st :: tl, O => stopTracks st :: tl
  | st :: tl, S j => st :: stopStreamAt j tl
  end.

(** [requestAnimationFrame(cb)] and [cancelAnimationFrame(id)]. *)
Definition requestAnimationFrame (s : t) : nat * t :=
  let id := nextAnimationId s in
  (id, set_nextAnimationId (S id) (set_scheduled (id :: scheduled s) s)).

Definition cancelAnimationFrame (id : nat) (s : t) : t :=
  set_scheduled (filter (fun j => negb (Nat.eqb j id)) (scheduled s)) s.

(** [initialize(videoElement)] up to its first [await]. *)
Definition initialize (video : HTMLVideoElement) (s : t) : t :=
  let s := set_isStopped false s in
  let s := set_videoElement (Some video) s in
  let s := set_pose (Some (mkPose false)) s in
  set_initPhase AwaitingStream s.

(** The body of [processVideo] after [await this.pose.send(...)]:
    schedule the next frame. *)
Definition processVideo_schedule (s : t) : t :=
  let '(id, s) := requestAnimationFrame s in
  set_loopPhase LoopIdle (set_requestAnimationId (Some id) s).

(** [processVideo] from its entry to its first suspension or its end. *)
Definition processVideo (s : t) : completion t :=
  (* if (this.isStopped || !this.videoElement || !this.pose) return; *)
  if isStopped s || negb (truthy (videoElement s)) || negb (truthy (pose s))
  then ret s else
  (* if (!this.videoElement.paused && !this.videoElement.ended) *)
  playing <- ((p <- prop (videoElement s) paused ;; ret (negb p))
              &&& (e <- prop (videoElement s) ended ;; ret (negb e))) ;;
  if playing
  then ret (set_loopPhase AwaitingSend (set_framesSent (S (framesSent s)) s))
  else ret (processVideo_schedule s).

(** [getUserMedia] resolved with a fresh stream of [n] live tracks:
    [initialize] resumes after its first [await]. *)
Definition onStream (n : nat) (s : t) : completion t :=
  let stream := List.length (streams s) in
  let s := set_streams (streams s ++ [repeat true n]) s in
  if isStopped s then
    (* stream.getTracks().forEach(track => track.stop()); return; *)
    ret (set_initPhase Resolved (set_streams (stopStreamAt stream (streams s)) s))
  else
    (* this.videoElement.srcObject = stream; *)
    v <- prop (videoElement s) (set_srcObject (Some stream)) ;;
    ret (set_initPhase AwaitingMetadata (set_videoElement (Some v) s)).

(** [getUserMedia] rejected: the [catch] block rethrows. *)
Definition onDenied (s : t) : t := set_initPhase Rejected s.

(** [onloadedmetadata] fires (or the element was gone and the promise
    resolved at once): [play()], then the tail of [initialize]. *)
Definition onLoadedMetadata (s : t) : completion t :=
  let s := match videoElement s with
           | Some v => set_videoElement (Some (set_paused false v)) s
           | None => s
           end in
  let s := set_initPhase Resolved s in
  if negb (isStopped s) then processVideo s else ret s.

(** [stop()] *)
Definition stop (s : t) : completion t :=
  let s := set_isStopped true s in
  (* if (this.requestAnimationId) cancelAnimationFrame(...) *)
  let s := match requestAnimationId s with
           | Some (S id) => cancelAnimationFrame (S id) s
           | _ => s
           end in
  (* if (this.videoElement && this.videoElement.srcObject) *)
  c <- (ret (truthy (videoElement s))
        &&& (so <- prop (videoElement s) srcObject ;; ret (truthy so))) ;;
  s <- (if c then
          so <- prop (videoElement s) srcObject ;;
          v <- prop (videoElement s) (set_srcObject None) ;;
          ret (set_videoElement (Some v)
                 (match so with
                  | Some stream => set_streams (stopStreamAt stream (streams s)) s
                  | None => s
                  end))
        else ret s) ;;
  (* if (this.pose) this.pose.close(); *)
  ret (if truthy (pose s) then set_pose (Some (mkPose true)) s else s).

(** What can happen to a service once [initialize] has been called. *)
Inductive event : Type :=
| Stop
| StreamGranted (tracks : nat)
| StreamDenied
| LoadedMetadata
| SendDone
| AnimationFrame (id : nat).

(** One event, when the service is in a position to take it. *)
Definition handle (e : event) (s : t) : option (completion t) :=
  match e with
  | Stop => Some (stop s)
  | StreamGranted n =>
      match initPhase s with AwaitingStream => Some (onStream n s) | _ => None end
  | StreamDenied =>
      match initPhase s with AwaitingStream => Some (ret (onDenied s)) | _ => None end
  | LoadedMetadata =>
      match initPhase s with AwaitingMetadata => Some (onLoadedMetadata s) | _ => None end
  | SendDone =>
      match loopPhase s with AwaitingSend => Some (ret (processVideo_schedule s)) | _ => None end
  | AnimationFrame id =>
      if existsb (Nat.eqb id) (scheduled s)
      then Some (processVideo (cancelAnimationFrame id s))
      else None
  end.

(** A run: every event is taken and none throws. *)
Fixpoint run (es : list event) (s : t) : option t :=
  match es with
  | [] => Some s
  | e :: es' =>
      match handle e s with
      | Some (Normal s') => run es' s'
      | _ => None
      end
  end.

End MediaPipeService.


(** ** components/LiquidShader: the fragment shader *)

Module Glsl.

Record vec2 : Type := mkvec2 { x2 : R; y2 : R }.
Record vec3 : Type := mkvec3 { x3 : R; y3 : R; z3 : R }.
Record vec4 : Type := mkvec4 { r4 : R; g4 : R; b4 : R; a4 : R }.

(** A bound texture, as [texture2D] sees it. *)
Definition sampler2D : Type := vec2 -> vec4.
Definition texture2D (t : sampler2D) (uv : vec2) : vec4 := t uv.

Definition floor (x : R) : R := IZR (Zfloor x).
Definition fract (x : R) : R := x - floor x.

Definition map2 (f : R -> R) (v : vec2) : vec2 := mkvec2 (f (x2 v)) (f (y2 v)).
Definition map3 (f : R -> R) (v : vec3) : vec3 :=
  mkvec3 (f (x3 v)) (f (y3 v)) (f (z3 v)).
Definition zip2 (f : R -> R -> R) (a b : vec2) : vec2 :=
  mkvec2 (f (x2 a) (x2 b)) (f (y2 a) (y2 b)).
Definition zip3 (f : R -> R -> R) (a b : vec3) : vec3 :=
  mkvec3 (f (x3 a) (x3 b)) (f (y3 a) (y3 b)) (f (z3 a) (z3 b)).
Definition map4 (f : R -> R) (v : vec4) : vec4 :=
  mkvec4 (f (r4 v)) (f (g4 v)) (f (b4 v)) (f (a4 v)).
Definition zip4 (f : R -> R -> R) (a b : vec4) : vec4 :=
  mkvec4 (f (r4 a) (r4 b)) (f (g4 a) (g4 b)) (f (b4 a) (b4 b)) (f (a4 a) (a4 b)).

Definition add2 := zip2 Rplus.
Definition sub2 := zip2 Rminus.
Definition add3 := zip3 Rplus.
Definition sub3 := zip3 Rminus.
Definition mul3 := zip3 Rmult.
Definition add4 := zip4 Rplus.
(** vector with scalar *)
Definition adds2 (v : vec2) (k : R) : vec2 := map2 (fun c => c + k) v.
Definition subs2 (v : vec2) (k : R) : vec2 := map2 (fun c => c - k) v.
Definition scale2 (v : vec2) (k : R) : vec2 := map2 (fun c => c * k) v.
Definition adds3 (v : vec3) (k : R) : vec3 := map3 (fun c => c + k) v.
Definition scale3 (v : vec3) (k : R) : vec3 := map3 (fun c => c * k) v.
Definition scale4 (v : vec4) (k : R) : vec4 := map4 (fun c => c * k) v.

Definition dot2 (a b : vec2) : R := x2 a * x2 b + y2 a * y2 b.
Definition dot3 (a b : vec3) : R := x3 a * x3 b + y3 a * y3 b + z3 a * z3 b.
Definition length2 (v : vec2) : R := sqrt (x2 v * x2 v + y2 v * y2 v).

Definition clamp (x lo hi : R) : R := Rmin (Rmax x lo) hi.

(** [smoothstep(edge0, edge1, x)]: Hermite interpolation of the clamped
    ratio. *)
Definition smoothstep (edge0 edge1 x : R) : R :=
  let t := clamp ((x - edge0) / (edge1 - edge0)) 0 1 in
  t * t * (3 - 2 * t).

(** [mix(x, y, a) = x * (1 - a) + y * a], on scalars and component-wise. *)
Definition mix (x y a : R) : R := x * (1 - a) + y * a.
Definition mix4 (x y : vec4) (a : R) : vec4 := zip4 (fun p q => mix p q a) x y.

End Glsl.

Module LiquidShader.
Import Glsl.

Definition mod289 (x : R) : R := x - floor (x * (1 / 289)) * 289.
Definition mod289_3 (v : vec3) : vec3 := map3 mod289 v.
Definition mod289_2 (v : vec2) : vec2 := map2 mod289 v.

(** [mod289(((x*34.0)+1.0)*x)] *)
Definition permute (v : vec3) : vec3 :=
  mod289_3 (mul3 (adds3 (scale3 v 34) 1) v).

(** Simplex noise, statement by statement. *)
Definition snoise (v : vec2) : R :=
  let Cx := 0.211324865405187 in
  let Cy := 0.366025403784439 in
  let Cz := -0.577350269189626 in
  let Cw := 0.024390243902439 in
  let i := map2 floor (adds2 v (dot2 v (mkvec2 Cy Cy))) in
  let x0 := adds2 (sub2 v i) (dot2 i (mkvec2 Cx Cx)) in
  let i1 := if Rlt_dec (y2 x0) (x2 x0) then mkvec2 1 0 else mkvec2 0 1 in
  (* x12 = x0.xyxy + C.xxzz; x12.xy -= i1; *)
  let x12xy := sub2 (adds2 x0 Cx) i1 in
  let x12zw := adds2 x0 Cz in
  let i := mod289_2 i in
  let p := permute (add3 (adds3 (permute (adds3 (mkvec3 0 (y2 i1) 1) (y2 i)))
                                (x2 i))
                         (mkvec3 0 (x2 i1) 1)) in
  let m := map3 (fun c => Rmax c 0)
             (map3 (fun c => 0.5 - c)
                (mkvec3 (dot2 x0 x0) (dot2 x12xy x12xy) (dot2 x12zw x12zw))) in
  let m := mul3 m m in
  let m := mul3 m m in
  let x := adds3 (scale3 (map3 fract (scale3 p Cw)) 2) (-1) in
  let h := adds3 (map3 Rabs x) (-0.5) in
  let ox := map3 floor (adds3 x 0.5) in
  let a0 := sub3 x ox in
  let m := mul3 m (map3 (fun c => 1.79284291400159 - 0.85373472095314 * c)
                     (add3 (mul3 a0 a0) (mul3 h h))) in
  let gx := x3 a0 * x2 x0 + x3 h * y2 x0 in
  let gy := y3 a0 * x2 x12xy + y3 h * x2 x12zw in
  let gz := z3 a0 * y2 x12xy + z3 h * y2 x12zw in
  130 * dot3 m (mkvec3 gx gy gz).

(** The uniforms and the varying of one fragment. *)
Record Inputs : Type := mkInputs {
  uTime : R;
  uBackgroundTexture : sampler2D;
  uVideoTexture : sampler2D;
  uMaskTexture : sampler2D;
  uRevealFactor : R;
  uResolution : vec2;
  vUv : vec2
}.

Section Main.
Variable u : Inputs.

Definition maskVal : R := r4 (texture2D (uMaskTexture u) (vUv u)).

Definition px : vec2 := mkvec2 (1 / x2 (uResolution u)) (1 / y2 (uResolution u)).
Definition radius : R := 5.
Definition offset : vec2 := scale2 px radius.

Definition mask_at (d : vec2) : R :=
  r4 (texture2D (uMaskTexture u) d).

Definition n : R := mask_at (add2 (vUv u) (mkvec2 0 (y2 offset))).
Definition s : R := mask_at (sub2 (vUv u) (mkvec2 0 (y2 offset))).
Definition e : R := mask_at (add2 (vUv u) (mkvec2 (x2 offset) 0)).
Definition w : R := mask_at (sub2 (vUv u) (mkvec2 (x2 offset) 0)).
Definition nw : R := mask_at (add2 (vUv u) (mkvec2 (- x2 offset) (y2 offset))).
Definition ne : R := mask_at (add2 (vUv u) (mkvec2 (x2 offset) (y2 offset))).
Definition sw : R := mask_at (add2 (vUv u) (mkvec2 (- x2 offset) (- y2 offset))).
Definition se : R := mask_at (add2 (vUv u) (mkvec2 (x2 offset) (- y2 offset))).

Definition gx : R := (ne + 2 * e + se) - (nw + 2 * w + sw).
Definition gy : R := (nw + 2 * n + ne) - (sw + 2 * s + se).

Definition edgeMag : R := length2 (mkvec2 gx gy).
Definition isEdge : R := smoothstep 0 2.5 edgeMag.

Definition noiseScale : R := 4.
Definition timeScale : R := 0.5.

Definition noise : R :=
  snoise (adds2 (scale2 (vUv u) noiseScale) (uTime u * timeScale)).
Definition noise2 : R :=
  snoise (adds2 (subs2 (scale2 (vUv u) (noiseScale * 0.7))
                       (uTime u * (timeScale * 0.8)))
                10).
Definition combinedNoise : R := (noise + noise2) * 0.5.

Definition distortion : vec2 := mkvec2 (combinedNoise * 0.02) (combinedNoise * 0.02).
Definition distortedBg : vec4 :=
  texture2D (uBackgroundTexture u) (add2 (vUv u) distortion).

Definition highlight : R := smoothstep 0.3 0.9 combinedNoise * 0.6.
Definition liquidColorTint : vec4 := mkvec4 0.9 0.95 1 0.
Definition liquidColor : vec4 := add4 distortedBg (scale4 liquidColorTint highlight).

Definition cleanBg : vec4 := texture2D (uBackgroundTexture u) (vUv u).
Definition personColor : vec4 := texture2D (uVideoTexture u) (vUv u).

(** The colour after the edge blend, before the reveal blend. *)
Definition edgeBlended : vec4 := mix4 cleanBg liquidColor isEdge.

(** [main]: the value written to [gl_FragColor]. *)
Definition main : vec4 :=
  let outputColor := cleanBg in
  let outputColor := mix4 outputColor liquidColor isEdge in
  let outputColor := mix4 outputColor personColor (uRevealFactor u * maskVal) in
  outputColor.

End Main.

(** *** The composition as the design describes it

    Written from the description, with nothing taken from [main]: the
    unit of the sampling radius (the size of one texel, in texture
    coordinates) and the noise value that drives the liquid colour are
    left open.

    The edge intensity is a Sobel-style gradient over the eight neighbours
    of the fragment on the mask, five texels away: the neighbour at column
    [dx] and row [dy] (each -1, 0 or 1) weighs 2 when it is a cardinal
    neighbour and 1 when it is a diagonal one; the horizontal gradient is
    the right column less the left one, the vertical one the upper row
    less the lower one.  The magnitude goes through the smooth threshold
    from 0.0 to 2.5.  The output starts from the clean background, is
    blended toward the liquid colour by the edge intensity, then toward
    the live video by reveal factor times mask value.  The liquid colour
    is the background distorted and highlighted: sampled 0.02 times the
    noise value away, plus a silver tint scaled by the highlight, which is
    0.6 times the smooth threshold of the noise value from 0.3 to 0.9. *)

(** A blend from [c] toward [d] with weight [k]: [k] of [d] and the rest
    of [c], channel by channel. *)
Definition blend_toward (c d : vec4) (k : R) : vec4 :=
  mkvec4 (r4 c * (1 - k) + r4 d * k) (g4 c * (1 - k) + g4 d * k)
         (b4 c * (1 - k) + b4 d * k) (a4 c * (1 - k) + a4 d * k).

(** The smooth threshold between [lo] and [hi]: 0 up to [lo], 1 from
    [hi] on, and the cubic [3 t^2 - 2 t^3] of the ratio [t] between. *)
Definition smooth_threshold (lo hi x : R) : R :=
  if Rle_dec x lo then 0
  else if Rle_dec hi x then 1
  else let t := (x - lo) / (hi - lo) in t * t * (3 - 2 * t).

Definition kernel_weight (dx dy : Z) : R :=
  if (Z.eqb dx 0 || Z.eqb dy 0)%bool then 2 else 1.

Section Described.
Variable texel : vec2.
Variable u : Inputs.

(** The mask five texels away in the direction [(dx, dy)]. *)
Definition neighbour (dx dy : Z) : R :=
  r4 (uMaskTexture u
        (mkvec2 (x2 (vUv u) + IZR dx * (x2 texel * 5))
                (y2 (vUv u) + IZR dy * (y2 texel * 5)))).

Definition column (dx : Z) : R :=
  kernel_weight dx 1 * neighbour dx 1
  + kernel_weight dx 0 * neighbour dx 0
  + kernel_weight dx (-1) * neighbour dx (-1).

Definition row (dy : Z) : R :=
  kernel_weight (-1) dy * neighbour (-1) dy
  + kernel_weight 0 dy * neighbour 0 dy
  + kernel_weight 1 dy * neighbour 1 dy.

Definition described_edge : R :=
  let gh := column 1 - column (-1) in
  let gv := row 1 - row (-1) in
  smooth_threshold 0 2.5 (sqrt (gh * gh + gv * gv)).

Definition described_composite (liquid : vec4) : vec4 :=
  let background := uBackgroundTexture u (vUv u) in
  let video := uVideoTexture u (vUv u) in
  let maskValue := r4 (uMaskTexture u (vUv u)) in
  blend_toward (blend_toward background liquid described_edge)
               video (uRevealFactor u * maskValue).

Definition described_liquid (noise : R) : vec4 :=
  let distorted :=
    uBackgroundTexture u
      (mkvec2 (x2 (vUv u) + noise * 0.02) (y2 (vUv u) + noise * 0.02)) in
  let highlight := smooth_threshold 0.3 0.9 noise * 0.6 in
  mkvec4 (r4 distorted + 0.9 * highlight) (g4 distorted + 0.95 * highlight)
         (b4 distorted + 1 * highlight) (a4 distorted + 0 * highlight).

End Described.

(** One pixel of the render target, and one texel of a mask surface of a
    given size, in texture coordinates. *)
Definition render_pixel (u : Inputs) : vec2 :=
  mkvec2 (1 / x2 (uResolution u)) (1 / y2 (uResolution u)).

Definition mask_texel (maskWidth maskHeight : nat) : vec2 :=
  mkvec2 (1 / INR maskWidth) (1 / INR maskHeight).

End LiquidShader.


(** ** types.ts *)

Inductive AppState : Type :=
| INITIALIZING
| WAITING_FOR_CLEAR_VIEW
| CAPTURING_BACKGROUND
| ACTIVE
| ERROR.

Definition AppState_eqb (a b : AppState) : bool :=
  match a, b with
  | INITIALIZING, INITIALIZING
  | WAITING_FOR_CLEAR_VIEW, WAITING_FOR_CLEAR_VIEW
  | CAPTURING_BACKGROUND, CAPTURING_BACKGROUND
  | ACTIVE, ACTIVE
  | ERROR, ERROR => true
  | _, _ => false
  end.

(** Pictures are named, not stored: a [nat] stands for the pixels of one
    video frame or of one segmentation mask. *)
Record MediaPipeResults : Type := mkResults {
  image : nat;
  segmentationMask : option nat;
  poseLandmarks : Landmarks
}.

(** What [canvas.toDataURL('image/png')] returns: the string ["data:,"]
    for a canvas without pixels, else the PNG of its bitmap. *)
Inductive DataUrl : Type :=
| EmptyDataUrl
| PngDataUrl (width height : nat) (bitmap : option nat).

(** A 2D canvas: its size and what has been drawn on it ([None] while it
    is transparent). *)
Record Canvas : Type := mkCanvas {
  width : nat;
  height : nat;
  bitmap : option nat
}.

(** [document.createElement('canvas')] *)
Definition createCanvas : Canvas := mkCanvas 300 150 None.

(** Assigning [canvas.width] or [canvas.height] clears the bitmap. *)
Definition setWidth (v : nat) (c : Canvas) : Canvas := mkCanvas v (height c) None.
Definition setHeight (v : nat) (c : Canvas) : Canvas := mkCanvas (width c) v None.

Definition clearRect (c : Canvas) : Canvas := mkCanvas (width c) (height c) None.

Definition toDataURL (c : Canvas) : DataUrl :=
  if Nat.eqb (width c) 0 || Nat.eqb (height c) 0 then EmptyDataUrl
  else PngDataUrl (width c) (height c) (bitmap c).

(** ** components/InvisibleManExperience: [FullScreenQuad] *)

Module FullScreenQuad.

(** three.js textures live in a store and are named by their index, so
    that a ref and a uniform can hold the same texture. *)
Inductive TextureSource : Type :=
| FromCanvas
| FromVideo
| FromUrl (url : DataUrl).

Record Texture : Type := mkTexture {
  source : TextureSource;
  version : nat          (* bumped by [needsUpdate = true] *)
}.

(** [texture.needsUpdate = true] on the texture at index [i]. *)
Fixpoint needsUpdate (i : nat) (store : list Texture) : list Texture :=
  match store, i with
  | [], _ => []
  | t :: rest, O => mkTexture (source t) (S (version t)) :: rest
  | t :: rest, S j => t :: needsUpdate j rest
  end.

(** The uniforms of [LiquidMaterialImpl]. *)
Record Uniforms : Type := mkUniforms {
  uTime : R;
  uBackgroundTexture : option nat;
  uVideoTexture : option nat;
  uMaskTexture : option nat;
  uRevealFactor : R;
  uResolution : R * R
}.

(** [new LiquidMaterialImpl()] *)
Definition newUniforms : Uniforms := mkUniforms 0 None None None 0 (1, 1).

Record SceneProps : Type := mkProps {
  appState : AppState;
  videoElement : option HTMLVideoElement;
  backgroundDataUrl : option DataUrl;
  latestResults : option MediaPipeResults;   (* [latestResults.current] *)
  isTouchingHead : bool
}.

(** The refs and state of one mounted [FullScreenQuad]. *)
Record t : Type := mk {
  materialRef : option Uniforms;
  bgTexture : option nat;
  videoTextureRef : option nat;
  maskTextureRef : option nat;
  maskCanvasRef : Canvas;
  revealProgress : R;
  textures : list Texture
}.

(** The component at its first render. *)
Definition mount : t := mk None None None None createCanvas 0 [].

(** [THREE.MathUtils.lerp(x, y, t)] is [(1 - t) * x + t * y]. *)
Definition lerp (x y t : R) : R := (1 - t) * x + t * y.

(** What the render loop hands to the [useFrame] callback, and the DOM
    as the callback finds it. *)
Record Frame : Type := mkFrame {
  elapsedTime : R;
  delta : R;
  size : R * R;
  context2d : bool      (* [maskCanvas.getContext('2d')] yields a context *)
}.

(** Step 2 of the callback: copy the segmentation mask to the canvas. *)
Definition ingestMask (f : Frame) (video : HTMLVideoElement) (mask : nat) (q : t) : t :=
  let maskCanvas := maskCanvasRef q in
  let maskCanvas :=
    if negb (Nat.eqb (width maskCanvas) (videoWidth video))
       || negb (Nat.eqb (height maskCanvas) (videoHeight video))
    then setHeight (videoHeight video) (setWidth (videoWidth video) maskCanvas)
    else maskCanvas in
  if context2d f then
    let maskCanvas := clearRect maskCanvas in
    let maskCanvas := mkCanvas (width maskCanvas) (height maskCanvas) (Some mask) in
    match maskTextureRef q with
    | None =>
        mk (materialRef q) (bgTexture q) (videoTextureRef q)
           (Some (List.length (textures q))) maskCanvas (revealProgress q)
           (textures q ++ [mkTexture FromCanvas 1])
    | Some i =>
        mk (materialRef q) (bgTexture q) (videoTextureRef q)
           (Some i) maskCanvas (revealProgress q)
           (needsUpdate i (textures q))
    end
  else
    mk (materialRef q) (bgTexture q) (videoTextureRef q)
       (maskTextureRef q) maskCanvas (revealProgress q) (textures q).

(** The [useFrame] callback. *)
Definition useFrame (props : SceneProps) (f : Frame) (q : t) : t :=
  match materialRef q, videoElement props, bgTexture q with
  | Some uniforms, Some video, Some bg =>
      (* 1. Update Video Texture *)
      let q := match videoTextureRef q with
               | Some i =>
                   mk (materialRef q) (bgTexture q) (videoTextureRef q)
                      (maskTextureRef q) (maskCanvasRef q) (revealProgress q)
                      (needsUpdate i (textures q))
               | None => q
               end in
      (* 2. Update Mask Texture from MediaPipe Results *)
      let q := match latestResults props with
               | Some results =>
                   match segmentationMask results with
                   | Some mask => ingestMask f video mask q
                   | None => q
                   end
               | None => q
               end in
      (* 3. Update Reveal Logic *)
      let targetReveal := if isTouchingHead props then 1 else 0 in
      let reveal := lerp (revealProgress q) targetReveal (delta f * 3) in
      (* 4. Update Shader Uniforms *)
      let uniforms :=
        mkUniforms (elapsedTime f) (Some bg) (videoTextureRef q)
          (match maskTextureRef q with
           | Some i => Some i
           | None => uMaskTexture uniforms
           end)
          reveal (size f) in
      mk (Some uniforms) (bgTexture q) (videoTextureRef q) (maskTextureRef q)
         (maskCanvasRef q) reveal (textures q)
  | _, _, _ => q
  end.

(** The other things that happen to a mounted quad. *)
Inductive event : Type :=
| MeshMounted                         (* [materialRef] receives the material *)
| BackgroundLoaded (url : DataUrl)    (* the loader's callback: [setBgTexture] *)
| VideoTextureEffect (props : SceneProps)   (* the effect on [videoElement] *)
| Tick (props : SceneProps) (f : Frame).

Definition handle (e : event) (q : t) : t :=
  match e with
  | MeshMounted =>
      match materialRef q with
      | Some _ => q
      | None => mk (Some newUniforms) (bgTexture q) (videoTextureRef q)
                  (maskTextureRef q) (maskCanvasRef q) (revealProgress q)
                  (textures q)
      end
  | BackgroundLoaded url =>
      mk (materialRef q) (Some (List.length (textures q))) (videoTextureRef q)
         (maskTextureRef q) (maskCanvasRef q) (revealProgress q)
         (textures q ++ [mkTexture (FromUrl url) 1])
  | VideoTextureEffect props =>
      (* if (videoElement && !videoTextureRef.current) *)
      match videoElement props, videoTextureRef q with
      | None, _ | _, Some _ => q
      | Some _, None => mk (materialRef q) (bgTexture q) (Some (List.length (textures q)))
                  (maskTextureRef q) (maskCanvasRef q) (revealProgress q)
                  (textures q ++ [mkTexture FromVideo 0])
      end
  | Tick props f => useFrame props f q
  end.

Definition run (es : list event) (q : t) : t :=
  fold_left (fun q e => handle e q) es q.

(** The quad after the first [n] frames of a stream of frames, under
    unchanged props. *)
Fixpoint after (props : SceneProps) (fs : nat -> Frame) (n : nat) (q : t) : t :=
  match n with
  | O => q
  | S m => useFrame props (fs m) (after props fs m q)
  end.

(** The store holds at index [i] a texture of the given kind. *)
Definition has_source (store : list Texture) (i : nat) (src : TextureSource) : Prop :=
  exists t, nth_error store i = Some t /\ source t = src.

(** What holds of every quad since its mount: the material's mask
    uniform and the mask ref name the same texture, and refs name textures
    of the right kind. *)
Definition quad_consistent (q : t) : Prop :=
  (materialRef q = None -> maskTextureRef q = None) /\
  (forall u, materialRef q = Some u -> uMaskTexture u = maskTextureRef q) /\
  (forall i, maskTextureRef q = Some i -> has_source (textures q) i FromCanvas) /\
  (forall j, videoTextureRef q = Some j -> has_source (textures q) j FromVideo).

End FullScreenQuad.


(** ** App.tsx *)

Module App.
Import Js.
Local Open Scope js_scope.

(** The four status texts the component sets. *)
Inductive StatusMessage : Type :=
| InitializingCamera     (* the text shown while the camera starts *)
| PleaseLeaveFrame       (* set when initialisation succeeds *)
| CameraFailed           (* set when initialisation fails *)
| NoMessage.             (* the empty string *)

(** The component's state ([useState]) and refs ([useRef]).
    [initializePending] stands for the promise returned by the current
    service's [initialize]: [true] until it resolves or rejects. *)
Record t : Type := mk {
  appState : AppState;
  statusMessage : StatusMessage;
  backgroundDataUrl : option DataUrl;
  isTouchingHead : bool;
  retryCount : nat;
  latestResultsRef : option MediaPipeResults;
  stateRef : AppState;
  noPersonTimerRef : nat;
  initializePending : bool
}.

(** The DOM as an effect finds it. *)
Record Env : Type := mkEnv {
  videoRef : option HTMLVideoElement;   (* [videoRef.current] *)
  context2d : bool                      (* [canvas.getContext('2d')] yields a context *)
}.

Definition setAppState v (a : t) : t :=
  mk v (statusMessage a) (backgroundDataUrl a) (isTouchingHead a) (retryCount a)
     (latestResultsRef a) (stateRef a) (noPersonTimerRef a) (initializePending a).
Definition setStatusMessage v (a : t) : t :=
  mk (appState a) v (backgroundDataUrl a) (isTouchingHead a) (retryCount a)
     (latestResultsRef a) (stateRef a) (noPersonTimerRef a) (initializePending a).
Definition setBackgroundDataUrl v (a : t) : t :=
  mk (appState a) (statusMessage a) v (isTouchingHead a) (retryCount a)
     (latestResultsRef a) (stateRef a) (noPersonTimerRef a) (initializePending a).
Definition setIsTouchingHead v (a : t) : t :=
  mk (appState a) (statusMessage a) (backgroundDataUrl a) v (retryCount a)
     (latestResultsRef a) (stateRef a) (noPersonTimerRef a) (initializePending a).
Definition setRetryCount v (a : t) : t :=
  mk (appState a) (statusMessage a) (backgroundDataUrl a) (isTouchingHead a) v
     (latestResultsRef a) (stateRef a) (noPersonTimerRef a) (initializePending a).
Definition set_latestResultsRef v (a : t) : t :=
  mk (appState a) (statusMessage a) (backgroundDataUrl a) (isTouchingHead a)
     (retryCount a) v (stateRef a) (noPersonTimerRef a) (initializePending a).
Definition set_stateRef v (a : t) : t :=
  mk (appState a) (statusMessage a) (backgroundDataUrl a) (isTouchingHead a)
     (retryCount a) (latestResultsRef a) v (noPersonTimerRef a) (initializePending a).
Definition set_noPersonTimerRef v (a : t) : t :=
  mk (appState a) (statusMessage a) (backgroundDataUrl a) (isTouchingHead a)
     (retryCount a) (latestResultsRef a) (stateRef a) v (initializePending a).
Definition set_initializePending v (a : t) : t :=
  mk (appState a) (statusMessage a) (backgroundDataUrl a) (isTouchingHead a)
     (retryCount a) (latestResultsRef a) (stateRef a) (noPersonTimerRef a) v.

(** The component at its first render, before any effect. *)
Definition mount : t :=
  mk INITIALIZING InitializingCamera None false 0 None INITIALIZING 0 false.

(** [onResults]: remember the latest results ([handleGameLogic] is empty). *)
Definition onResults (results : MediaPipeResults) (a : t) : t :=
  set_latestResultsRef
    (Some (mkResults (image results) (segmentationMask results)
             (poseLandmarks results))) a.

(** The callback handed to the service. *)
Definition wrappedOnResults (results : MediaPipeResults) (a : t) : completion t :=
  let a := onResults results a in
  let currentState := stateRef a in
  let landmarks := poseLandmarks results in
  isPersonPresent <- hasPeople landmarks ;;
  match currentState with
  | WAITING_FOR_CLEAR_VIEW =>
      if negb isPersonPresent then
        let a := set_noPersonTimerRef (noPersonTimerRef a + 1) a in
        if Nat.ltb 30 (noPersonTimerRef a)
        then ret (setAppState CAPTURING_BACKGROUND a)
        else ret a
      else ret (set_noPersonTimerRef 0 a)
  | ACTIVE =>
      if truthy landmarks then
        touching <- checkFingerOnHead landmarks ;;
        ret (setIsTouchingHead touching a)
      else ret (setIsTouchingHead false a)
  | _ => ret a
  end.

(** The effect on [retryCount], cleanup of the previous run included:
    the old service is stopped, and with a video element at hand the state
    is reset and a new service starts initialising. *)
Definition initializeEffect (env : Env) (a : t) : t :=
  match videoRef env with
  | Some _ =>
      set_initializePending true
        (setStatusMessage InitializingCamera (setAppState INITIALIZING a))
  | None => a
  end.

(** [.then(...)] and [.catch(...)] of [service.initialize(...)]. *)
Definition onInitializeResolved (a : t) : t :=
  set_initializePending false
    (setStatusMessage PleaseLeaveFrame (setAppState WAITING_FOR_CLEAR_VIEW a)).

Definition onInitializeRejected (a : t) : t :=
  set_initializePending false
    (setStatusMessage CameraFailed (setAppState ERROR a)).

(** The retry button: [setRetryCount(c => c + 1)], which re-runs the
    effect on [retryCount]. *)
Definition retry (env : Env) (a : t) : t :=
  initializeEffect env (setRetryCount (retryCount a + 1) a).

(** [ctx.drawImage(video, 0, 0)]: a video without picture data draws
    nothing. *)
Definition drawImage (video : HTMLVideoElement) (c : Canvas) : Canvas :=
  if Nat.eqb (videoWidth video) 0 || Nat.eqb (videoHeight video) 0 then c
  else mkCanvas (width c) (height c) (Some (currentFrame video)).

(** The capture effect, run for a render in which [appState] changed. *)
Definition captureBackgroundEffect (env : Env) (a : t) : t :=
  match appState a, videoRef env with
  | CAPTURING_BACKGROUND, Some video =>
      let canvas := createCanvas in
      let canvas := setWidth (videoWidth video) canvas in
      let canvas := setHeight (videoHeight video) canvas in
      if context2d env then
        let canvas := drawImage video canvas in
        let dataUrl := toDataURL canvas in
        setStatusMessage NoMessage
          (setAppState ACTIVE (setBackgroundDataUrl (Some dataUrl) a))
      else a
  | _, _ => a
  end.

(** The effects that depend on [appState], in the order the component
    declares them: [stateRef.current = appState], then the capture effect.
    [stateRef] holds the [appState] of the last render whose effects ran,
    so they run again exactly when the two differ. *)
Definition flushEffects (env : Env) (a : t) : t :=
  if AppState_eqb (appState a) (stateRef a) then a
  else captureBackgroundEffect env (set_stateRef (appState a) a).

(** A result in which [hasPeople] finds nobody (no landmark array, or an
    empty one), and one in which it finds somebody. *)
Definition nobody (r : MediaPipeResults) : Prop :=
  hasPeople (poseLandmarks r) = Normal false.

Definition somebody (r : MediaPipeResults) : Prop :=
  hasPeople (poseLandmarks r) = Normal true.

(** Results delivered one after the other, with no render in between. *)
Fixpoint deliver (rs : list MediaPipeResults) (a : t) : completion t :=
  match rs with
  | [] => ret a
  | r :: rest => a' <- wrappedOnResults r a ;; deliver rest a'
  end.

(** The JSX condition under which [InvisibleManExperience] is rendered. *)
Definition experienceRendered (a : t) : bool :=
  AppState_eqb (appState a) ACTIVE && truthy (backgroundDataUrl a).

(** The retry button is rendered in the [ERROR] state only. *)
Definition retryRendered (a : t) : bool := AppState_eqb (appState a) ERROR.

End App.

(** ** The running page: [App] and, while it is rendered, the quad *)

Module Page.

Record t : Type := mk {
  app : App.t;
  quad : option FullScreenQuad.t
}.

(** React mounts and unmounts the quad with the JSX condition; a fresh
    mount starts from [FullScreenQuad.mount]. *)
Definition reconcile (a : App.t) (q : option FullScreenQuad.t) : t :=
  mk a (if App.experienceRendered a
        then Some (match q with Some q' => q' | None => FullScreenQuad.mount end)
        else None).

(** The props [App] passes down. *)
Definition sceneProps (env : App.Env) (a : App.t) : FullScreenQuad.SceneProps :=
  FullScreenQuad.mkProps (App.appState a) (App.videoRef env)
    (App.backgroundDataUrl a) (App.latestResultsRef a) (App.isTouchingHead a).

Inductive event : Type :=
| Results (results : MediaPipeResults)      (* the service delivers a result *)
| Effects (env : App.Env)                   (* React runs the pending effects *)
| InitializeResolved
| InitializeRejected
| RetryClick (env : App.Env)
| MeshMounted
| BackgroundLoaded
| VideoTextureEffect (env : App.Env)
| AnimationFrame (env : App.Env) (f : FullScreenQuad.Frame).

Definition onQuad (e : FullScreenQuad.event) (p : t) : option t :=
  match quad p with
  | Some q => Some (mk (app p) (Some (FullScreenQuad.handle e q)))
  | None => None
  end.

(** One event; [None] when the page cannot take it (no pending promise,
    no button, no quad) or when the handler throws. *)
Definition step (e : event) (p : t) : option t :=
  match e with
  | Results results =>
      match App.wrappedOnResults results (app p) with
      | Js.Normal a => Some (reconcile a (quad p))
      | Js.TypeError => None
      end
  | Effects env => Some (reconcile (App.flushEffects env (app p)) (quad p))
  | InitializeResolved =>
      if App.initializePending (app p)
      then Some (reconcile (App.onInitializeResolved (app p)) (quad p))
      else None
  | InitializeRejected =>
      if App.initializePending (app p)
      then Some (reconcile (App.onInitializeRejected (app p)) (quad p))
      else None
  | RetryClick env =>
      if App.retryRendered (app p)
      then Some (reconcile (App.retry env (app p)) (quad p))
      else None
  | MeshMounted => onQuad FullScreenQuad.MeshMounted p
  | BackgroundLoaded =>
      match App.backgroundDataUrl (app p) with
      | Some url => onQuad (FullScreenQuad.BackgroundLoaded url) p
      | None => None
      end
  | VideoTextureEffect env =>
      onQuad (FullScreenQuad.VideoTextureEffect (sceneProps env (app p))) p
  | AnimationFrame env f =>
      onQuad (FullScreenQuad.Tick (sceneProps env (app p)) f) p
  end.

Fixpoint run (es : list event) (p : t) : option t :=
  match es with
  | [] => Some p
  | e :: es' =>
      match step e p with
      | Some p' => run es' p'
      | None => None
      end
  end.

(** The page after its first render and the mount effects. *)
Definition initial (env : App.Env) : t :=
  reconcile (App.initializeEffect env App.mount) None.

Definition reachable (p : t) : Prop :=
  exists env es, run es (initial env) = Some p.

(** What holds of every reachable page. *)
Definition invariant (p : t) : Prop :=
  let a := app p in
  (App.initializePending a = true -> App.appState a = INITIALIZING) /\
  (App.appState a = INITIALIZING \/ App.appState a = ERROR ->
   (App.stateRef a = INITIALIZING \/ App.stateRef a = ERROR) /\
   App.noPersonTimerRef a = O) /\
  (App.stateRef a = WAITING_FOR_CLEAR_VIEW ->
   App.appState a = WAITING_FOR_CLEAR_VIEW \/
   App.appState a = CAPTURING_BACKGROUND) /\
  (App.stateRef a = CAPTURING_BACKGROUND ->
   App.appState a = CAPTURING_BACKGROUND \/ App.appState a = ACTIVE) /\
  (App.stateRef a = ACTIVE -> App.appState a = ACTIVE) /\
  (App.backgroundDataUrl a <> None <-> App.appState a = ACTIVE) /\
  (App.appState a <> ACTIVE -> quad p = None).

(** The reveal factor of the page: that of the mounted quad; a page
    without quad has none, and its next quad starts from 0. *)
Definition revealFactor (p : t) : R :=
  match quad p with
  | Some q => FullScreenQuad.revealProgress q
  | None => 0
  end.

End Page.


(** ** The gesture evaluator and the easing on binary64 numbers

    JavaScript numbers are IEEE 754 binary64 values, and so are the
    primitive floats used here: [+], [-], [*], [sqrt] and [<] round and
    compare as the engine's do.  [Math.pow(d, 2)] is taken to be the
    correctly rounded square [d * d].  The literal [0.2] denotes the
    binary64 number nearest to one fifth, [0x1.999999999999ap-3], which is
    a little above one fifth. *)

Module Binary64.
Import Js Floats QArith.
Local Open Scope float_scope.
Local Open Scope js_scope.

Module Landmark.
Record t : Type := mk { x : float; y : float }.
End Landmark.

Definition Landmarks : Type := option (list (option Landmark.t)).

(** [Math.pow(d, 2)] *)
Definition pow2 (d : float) : float := d * d.

Definition getDistance (p1 p2 : Landmark.t) : float :=
  sqrt (pow2 (Landmark.x p1 - Landmark.x p2) + pow2 (Landmark.y p1 - Landmark.y p2)).

Definition HEAD_PROXIMITY_THRESHOLD : float := 0x1.999999999999ap-3.

Definition getDistance_js (p1 p2 : option Landmark.t) : completion float :=
  x1 <- prop p1 Landmark.x ;;
  x2 <- prop p2 Landmark.x ;;
  y1 <- prop p1 Landmark.y ;;
  y2 <- prop p2 Landmark.y ;;
  ret (sqrt (pow2 (x1 - x2) + pow2 (y1 - y2))).

Definition lt_js (a b : completion float) : completion bool :=
  va <- a ;; vb <- b ;; ret (ltb va vb).

Definition handOnHead (hand nose : option Landmark.t) : completion bool :=
  lt_js (getDistance_js hand nose) (ret HEAD_PROXIMITY_THRESHOLD)
  &&& lt_js (prop hand Landmark.y) (prop nose Landmark.y).

Definition checkFingerOnHead (landmarks : Landmarks) : completion bool :=
  (* if (!landmarks || landmarks.length === 0) return false; *)
  g <- (ret (negb (truthy landmarks))
        ||| (n <- prop landmarks (@List.length _) ;; ret (Nat.eqb n 0))) ;;
  if g then ret false else
  nose <- index landmarks POSE_LANDMARKS.NOSE ;;
  leftIndex <- index landmarks POSE_LANDMARKS.LEFT_INDEX ;;
  rightIndex <- index landmarks POSE_LANDMARKS.RIGHT_INDEX ;;
  (* if (!nose || !leftIndex || !rightIndex) return false; *)
  if negb (truthy nose) || negb (truthy leftIndex) || negb (truthy rightIndex)
  then ret false else
  leftHandOnHead <- handOnHead leftIndex nose ;;
  rightHandOnHead <- handOnHead rightIndex nose ;;
  ret (leftHandOnHead || rightHandOnHead).

Definition landmarkAt (landmarks : Landmarks) (i : nat) : option Landmark.t :=
  match landmarks with
  | Some l => match nth_error l i with Some v => v | None => None end
  | None => None
  end.

(** A hand is on the head as the code computes it: the computed distance
    is below the threshold, and the hand's [y] below the nose's. *)
Definition onHead (hand nose : Landmark.t) : Prop :=
  ltb (getDistance hand nose) HEAD_PROXIMITY_THRESHOLD = true /\
  ltb (Landmark.y hand) (Landmark.y nose) = true.

(** A frame of 21 landmarks of which the three that matter are given. *)
Definition pose (nose leftIndex rightIndex : Landmark.t) : Landmarks :=
  Some (Some nose :: repeat None 18 ++ [Some leftIndex; Some rightIndex]).

(** The rational number a finite binary64 number stands for. *)
Definition exact (f : float) : option Q :=
  match Prim2SF f with
  | S754_zero _ => Some 0%Q
  | S754_finite s m e =>
      let v := (inject_Z (Zpos m) * Qpower 2 e)%Q in
      Some (if s then Qopp v else v)
  | _ => None
  end.

(** The square of the Euclidean distance of two landmarks, without
    rounding. *)
Definition exactDistance2 (p1 p2 : Landmark.t) : option Q :=
  match exact (Landmark.x p1), exact (Landmark.x p2),
        exact (Landmark.y p1), exact (Landmark.y p2) with
  | Some x1, Some x2, Some y1, Some y2 =>
      Some (Qred ((x1 - x2) * (x1 - x2) + (y1 - y2) * (y1 - y2)))%Q
  | _, _, _, _ => None
  end.

(** The two landmarks are closer than [d], farther than [d]. *)
Definition closer (p1 p2 : Landmark.t) (d : Q) : Prop :=
  match exactDistance2 p1 p2 with Some q => (q < d * d)%Q | None => False end.

Definition farther (p1 p2 : Landmark.t) (d : Q) : Prop :=
  match exactDistance2 p1 p2 with Some q => (d * d < q)%Q | None => False end.

(** [THREE.MathUtils.lerp(x, y, t)] *)
Definition lerp (x y t : float) : float := (1 - t) * x + t * y.

(** The reveal factor after [n] ticks of [delta] seconds each with the
    gesture held: [lerp(revealProgress, 1.0, delta * 3.0)] at each. *)
Fixpoint reveal (delta : float) (n : nat) (r : float) : float :=
  match n with
  | O => r
  | S m => lerp (reveal delta m r) 1 (delta * 3)
  end.

End Binary64.

(** ** Notions used to state further properties *)




(** [hasPeople] finds nobody, as a test. *)
Definition nobodyb (r : MediaPipeResults) : bool :=
  match hasPeople (poseLandmarks r) with
  | Js.Normal false => true
  | _ => false
  end.

(** The run of results without a person that ends a list of results,
    counted on from [c]. *)
Definition streak (rs : list MediaPipeResults) (c : nat) : nat :=
  fold_left (fun k r => if nobodyb r then S k else O) rs c.

(** How far the calibration has come. *)
Definition progress (s : AppState) : nat :=
  match s with
  | INITIALIZING | ERROR => 0
  | WAITING_FOR_CLEAR_VIEW => 1
  | CAPTURING_BACKGROUND => 2
  | ACTIVE => 3
  end.

(** The frame loop of a service, at most once: no frame callback is
    pending while a send is in flight, at most one otherwise, and the
    pending one is the one [requestAnimationId] names.  Until the stream
    and its metadata have arrived there is no loop at all. *)
Definition single_loop (s : MediaPipeService.t) : Prop :=
  (1 <= MediaPipeService.nextAnimationId s)%nat /\
  MediaPipeService.videoElement s <> None /\
  match MediaPipeService.loopPhase s with
  | MediaPipeService.AwaitingSend => MediaPipeService.scheduled s = []
  | MediaPipeService.LoopIdle =>
      MediaPipeService.scheduled s = [] \/
      exists id, MediaPipeService.scheduled s = [S id] /\
                 MediaPipeService.requestAnimationId s = Some (S id)
  end /\
  match MediaPipeService.initPhase s with
  | MediaPipeService.AwaitingStream | MediaPipeService.AwaitingMetadata =>
      MediaPipeService.loopPhase s = MediaPipeService.LoopIdle /\
      MediaPipeService.scheduled s = []
  | _ => True
  end.

(** The frames in flight or pending. *)
Definition pending_frames (s : MediaPipeService.t) : nat :=
  (List.length (MediaPipeService.scheduled s)
   + match MediaPipeService.loopPhase s with
     | MediaPipeService.AwaitingSend => 1
     | MediaPipeService.LoopIdle => 0
     end)%nat.

(** * Properties *)

(** ** Comparison on reals *)

Lemma Rltb_true a b : Js.Rltb a b = true <-> a < b.
Proof. unfold Js.Rltb; destruct (Rlt_dec a b); split; auto; discriminate. Qed.

Lemma Rltb_false a b : Js.Rltb a b = false <-> ~ a < b.
Proof.
  unfold Js.Rltb; destruct (Rlt_dec a b); split; auto; try discriminate.
  intros H; contradiction.
Qed.

(** ** Gesture evaluator *)

Section GestureProperties.
Import Js.

Lemma landmarkAt_some_nonempty landmarks i p :
  landmarkAt landmarks i = Some p ->
  exists l, landmarks = Some l /\ l <> [].
Proof.
  destruct landmarks as [l|]; simpl; [|discriminate].
  intros H; exists l; split; [reflexivity|].
  intros ->. destruct i; discriminate.
Qed.

Lemma index_landmarkAt l i :
  index (Some l) i = Normal (landmarkAt (Some l) i).
Proof. reflexivity. Qed.

(** On the first guard: an absent or empty array ends the call. *)
Lemma checkFingerOnHead_absent landmarks :
  landmarks = None \/ landmarks = Some [] ->
  checkFingerOnHead landmarks = Normal false.
Proof. intros [-> | ->]; reflexivity. Qed.

(** Past the first guard the three entries decide. *)
Lemma checkFingerOnHead_entries l :
  l <> [] ->
  checkFingerOnHead (Some l) =
  match landmarkAt (Some l) POSE_LANDMARKS.NOSE,
        landmarkAt (Some l) POSE_LANDMARKS.LEFT_INDEX,
        landmarkAt (Some l) POSE_LANDMARKS.RIGHT_INDEX with
  | Some nose, Some leftIndex, Some rightIndex =>
      Normal
        ((Rltb (getDistance leftIndex nose) HEAD_PROXIMITY_THRESHOLD
          && Rltb (Landmark.y leftIndex) (Landmark.y nose))
         || (Rltb (getDistance rightIndex nose) HEAD_PROXIMITY_THRESHOLD
             && Rltb (Landmark.y rightIndex) (Landmark.y nose)))
  | _, _, _ => Normal false
  end.
Proof.
  intros Hne. unfold checkFingerOnHead.
  destruct l as [|e0 l']; [congruence|]. cbn [truthy negb ret or_else bind prop].
  replace (Nat.eqb (List.length (e0 :: l')) 0) with false by reflexivity.
  cbv iota. rewrite !index_landmarkAt. cbn [bind].
  destruct (landmarkAt (Some (e0 :: l')) POSE_LANDMARKS.NOSE) as [nose|];
    [|reflexivity].
  destruct (landmarkAt (Some (e0 :: l')) POSE_LANDMARKS.LEFT_INDEX) as [li|];
    [|reflexivity].
  destruct (landmarkAt (Some (e0 :: l')) POSE_LANDMARKS.RIGHT_INDEX) as [ri|];
    [|reflexivity].
  cbn [truthy negb orb].
  unfold handOnHead, lt_js, getDistance_js, and_then, getDistance.
  cbn [prop bind ret].
  destruct (Rltb _ HEAD_PROXIMITY_THRESHOLD); cbn [bind ret andb];
    destruct (Rltb _ HEAD_PROXIMITY_THRESHOLD); reflexivity.
Qed.

Lemma onHead_Rltb hand nose :
  Rltb (getDistance hand nose) HEAD_PROXIMITY_THRESHOLD
  && Rltb (Landmark.y hand) (Landmark.y nose) = true
  <-> onHead hand nose.
Proof.
  unfold onHead, HEAD_PROXIMITY_THRESHOLD.
  rewrite andb_true_iff, !Rltb_true. reflexivity.
Qed.

(** The evaluator never throws. *)
Lemma checkFingerOnHead_total landmarks :
  exists b, checkFingerOnHead landmarks = Normal b.
Proof.
  destruct landmarks as [[|e0 l]|].
  - exists false; reflexivity.
  - rewrite checkFingerOnHead_entries by discriminate.
    destruct (landmarkAt (Some (e0 :: l)) POSE_LANDMARKS.NOSE);
      destruct (landmarkAt (Some (e0 :: l)) POSE_LANDMARKS.LEFT_INDEX);
      destruct (landmarkAt (Some (e0 :: l)) POSE_LANDMARKS.RIGHT_INDEX); eauto.
  - exists false; reflexivity.
Qed.

Lemma hasPeople_value landmarks :
  hasPeople landmarks =
  Normal (match landmarks with Some (_ :: _) => true | _ => false end).
Proof. destruct landmarks as [[|e0 l]|]; reflexivity. Qed.

(** C6. An absent or empty landmark array, or one that lacks the nose,
    the left index or the right index, makes the evaluator return [false];
    it does not throw. *)
Theorem checkFingerOnHead_missing_landmark (landmarks : Landmarks) :
  landmarks = None \/ landmarks = Some [] \/
  landmarkAt landmarks POSE_LANDMARKS.NOSE = None \/
  landmarkAt landmarks POSE_LANDMARKS.LEFT_INDEX = None \/
  landmarkAt landmarks POSE_LANDMARKS.RIGHT_INDEX = None ->
  checkFingerOnHead landmarks = Normal false.
Proof.
  intros H.
  destruct landmarks as [[|e0 l]|]; try reflexivity.
  rewrite checkFingerOnHead_entries by discriminate.
  destruct H as [H | [H | [H | [H | H]]]]; try discriminate; rewrite H.
  - reflexivity.
  - destruct (landmarkAt (Some (e0 :: l)) POSE_LANDMARKS.NOSE); reflexivity.
  - destruct (landmarkAt (Some (e0 :: l)) POSE_LANDMARKS.NOSE);
      [destruct (landmarkAt (Some (e0 :: l)) POSE_LANDMARKS.LEFT_INDEX)|]; reflexivity.
Qed.

End GestureProperties.

Lemma sqrt_lt_bound (a b : R) : 0 <= a -> 0 < b -> a < b * b -> sqrt a < b.
Proof.
  intros Ha Hb Hab.
  rewrite <- (sqrt_square b) by lra.
  apply sqrt_lt_1; nra.
Qed.

(** A frame of 21 landmarks with the left index finger 0.1 above the
    nose and the right hand far away. *)
Example checkFingerOnHead_left_hand_up :
  checkFingerOnHead
    (Some (Some (Landmark.mk 0.5 0.5) :: repeat None 18
           ++ [Some (Landmark.mk 0.5 0.4); Some (Landmark.mk 0.9 0.9)]))
  = Js.Normal true.
Proof.
  rewrite checkFingerOnHead_entries by discriminate.
  cbn [landmarkAt nth_error repeat app POSE_LANDMARKS.NOSE
       POSE_LANDMARKS.LEFT_INDEX POSE_LANDMARKS.RIGHT_INDEX].
  f_equal. apply orb_true_iff; left. apply onHead_Rltb.
  unfold onHead, getDistance; cbn [Landmark.x Landmark.y]. split; [|lra].
  apply sqrt_lt_bound; nra.
Qed.

Lemma checkFingerOnHead_missing_witness :
  checkFingerOnHead (Some [Some (Landmark.mk 0.5 0.5)]) = Js.Normal false.
Proof.
  apply checkFingerOnHead_missing_landmark.
  right; right; right; left; reflexivity.
Defined.

(** ** The gesture evaluator on binary64 numbers *)

Section Binary64Gesture.
Import Js Floats QArith.
Local Open Scope float_scope.

(** Past the first guard the three entries decide. *)
Lemma checkFingerOnHead_binary64_entries l :
  l <> [] ->
  Binary64.checkFingerOnHead (Some l) =
  match Binary64.landmarkAt (Some l) POSE_LANDMARKS.NOSE,
        Binary64.landmarkAt (Some l) POSE_LANDMARKS.LEFT_INDEX,
        Binary64.landmarkAt (Some l) POSE_LANDMARKS.RIGHT_INDEX with
  | Some nose, Some leftIndex, Some rightIndex =>
      Normal
        ((ltb (Binary64.getDistance leftIndex nose) Binary64.HEAD_PROXIMITY_THRESHOLD
          && ltb (Binary64.Landmark.y leftIndex) (Binary64.Landmark.y nose))
         || (ltb (Binary64.getDistance rightIndex nose) Binary64.HEAD_PROXIMITY_THRESHOLD
             && ltb (Binary64.Landmark.y rightIndex) (Binary64.Landmark.y nose)))
  | _, _, _ => Normal false
  end.
Proof.
  intros Hne. unfold Binary64.checkFingerOnHead.
  destruct l as [|e0 l']; [congruence|]. cbn [truthy negb ret or_else bind prop].
  replace (Nat.eqb (List.length (e0 :: l')) 0) with false by reflexivity.
  cbv iota.
  change (index (Some (e0 :: l')) POSE_LANDMARKS.NOSE)
    with (Normal (Binary64.landmarkAt (Some (e0 :: l')) POSE_LANDMARKS.NOSE)).
  change (index (Some (e0 :: l')) POSE_LANDMARKS.LEFT_INDEX)
    with (Normal (Binary64.landmarkAt (Some (e0 :: l')) POSE_LANDMARKS.LEFT_INDEX)).
  change (index (Some (e0 :: l')) POSE_LANDMARKS.RIGHT_INDEX)
    with (Normal (Binary64.landmarkAt (Some (e0 :: l')) POSE_LANDMARKS.RIGHT_INDEX)).
  cbn [bind].
  destruct (Binary64.landmarkAt (Some (e0 :: l')) POSE_LANDMARKS.NOSE) as [nose|];
    [|reflexivity].
  destruct (Binary64.landmarkAt (Some (e0 :: l')) POSE_LANDMARKS.LEFT_INDEX) as [li|];
    [|reflexivity].
  destruct (Binary64.landmarkAt (Some (e0 :: l')) POSE_LANDMARKS.RIGHT_INDEX) as [ri|];
    [|reflexivity].
  cbn [truthy negb orb].
  unfold Binary64.handOnHead, Binary64.lt_js, Binary64.getDistance_js, and_then, Binary64.getDistance.
  cbn [prop bind ret].
  destruct (ltb _ Binary64.HEAD_PROXIMITY_THRESHOLD); cbn [bind ret andb];
    destruct (ltb _ Binary64.HEAD_PROXIMITY_THRESHOLD); reflexivity.
Qed.

(** C5, as the code has it.  With nose, left index and right index in
    the frame, the evaluator answers (without throwing) [true] exactly
    when for some hand the distance to the nose as computed in binary64,
    [sqrt(dx * dx + dy * dy)] with each operation rounded, is below the
    binary64 number [0.2], and the finger's [y] is below the nose's.  In
    particular two hands whose computed distances are not below that
    number give [false], wherever they are vertically. *)
Theorem checkFingerOnHead_iff_computed_distance
  (landmarks : Binary64.Landmarks) (nose leftIndex rightIndex : Binary64.Landmark.t) :
  Binary64.landmarkAt landmarks POSE_LANDMARKS.NOSE = Some nose ->
  Binary64.landmarkAt landmarks POSE_LANDMARKS.LEFT_INDEX = Some leftIndex ->
  Binary64.landmarkAt landmarks POSE_LANDMARKS.RIGHT_INDEX = Some rightIndex ->
  (exists b, Binary64.checkFingerOnHead landmarks = Normal b /\
             (b = true <-> Binary64.onHead leftIndex nose \/ Binary64.onHead rightIndex nose))
  /\ (ltb (Binary64.getDistance leftIndex nose) Binary64.HEAD_PROXIMITY_THRESHOLD = false ->
      ltb (Binary64.getDistance rightIndex nose) Binary64.HEAD_PROXIMITY_THRESHOLD = false ->
      Binary64.checkFingerOnHead landmarks = Normal false).
Proof.
  intros Hn Hl Hr.
  destruct landmarks as [[|e0 l]|]; try discriminate.
  rewrite checkFingerOnHead_binary64_entries by discriminate.
  rewrite Hn, Hl, Hr. split.
  - eexists; split; [reflexivity|].
    unfold Binary64.onHead. rewrite orb_true_iff, !andb_true_iff. reflexivity.
  - intros -> ->. reflexivity.
Qed.

(** The left index finger a quarter of the frame above the nose, the
    right hand away. *)
Lemma checkFingerOnHead_iff_computed_witness :
  let nose := Binary64.Landmark.mk 0x1p-1 0x1p-1 in
  let leftIndex := Binary64.Landmark.mk 0x1p-1 0x1.8p-2 in
  let rightIndex := Binary64.Landmark.mk 0x1.8p-1 0x1.8p-1 in
  let landmarks := Binary64.pose nose leftIndex rightIndex in
  (exists b, Binary64.checkFingerOnHead landmarks = Normal b /\
             (b = true <-> Binary64.onHead leftIndex nose \/ Binary64.onHead rightIndex nose))
  /\ (ltb (Binary64.getDistance leftIndex nose) Binary64.HEAD_PROXIMITY_THRESHOLD = false ->
      ltb (Binary64.getDistance rightIndex nose) Binary64.HEAD_PROXIMITY_THRESHOLD = false ->
      Binary64.checkFingerOnHead landmarks = Normal false).
Proof.
  intros nose leftIndex rightIndex landmarks.
  apply (checkFingerOnHead_iff_computed_distance landmarks nose leftIndex rightIndex);
    reflexivity.
Defined.

Example checkFingerOnHead_binary64_left_hand_up :
  Binary64.checkFingerOnHead
    (Binary64.pose (Binary64.Landmark.mk 0x1p-1 0x1p-1) (Binary64.Landmark.mk 0x1p-1 0x1.8p-2)
       (Binary64.Landmark.mk 0x1.8p-1 0x1.8p-1))
  = Normal true.
Proof. vm_compute. reflexivity. Qed.

(** C5 as stated fails in both directions, the nose being at
    (0.5, 0.5).  With both index fingers at
    (0.5971251376432958, 0.325166628935518), closer to the nose than one
    fifth and above it, the evaluator answers [false]: the computed
    distance is the binary64 number [0.2] itself.  With both at
    (0.5926607025712629, 0.32276006601502033), farther from the nose than
    one fifth, it answers [true]: the computed distance is the binary64
    number just below [0.2]. *)
Lemma checkFingerOnHead_rounds_at_threshold :
  let nose := Binary64.Landmark.mk 0x1p-1 0x1p-1 in
  let near := Binary64.Landmark.mk 0x1.31ba62d3984bep-1 0x1.4cf87b141d4ddp-2 in
  let far := Binary64.Landmark.mk 0x1.2f71393e55fe8p-1 0x1.4a819d5ff50e9p-2 in
  (Binary64.closer near nose (1 # 5) /\
   ltb (Binary64.Landmark.y near) (Binary64.Landmark.y nose) = true /\
   Binary64.getDistance near nose = 0x1.999999999999ap-3 /\
   Binary64.checkFingerOnHead (Binary64.pose nose near near) = Normal false) /\
  (Binary64.farther far nose (1 # 5) /\
   Binary64.getDistance far nose = 0x1.9999999999999p-3 /\
   Binary64.checkFingerOnHead (Binary64.pose nose far far) = Normal true).
Proof. repeat split; vm_compute; reflexivity. Qed.

(** *** The easing on binary64 numbers

    With [dt = 0.25] the reveal factor is exactly 1.0 at tick 27 and does
    not increase afterwards; with [dt = 0.1] it stops one step short of
    1.0, at tick 102. *)
Example reveal_binary64_stalls :
  Binary64.reveal 0x1p-2 26 0 = 0x1.ffffffffffffep-1 /\
  Binary64.reveal 0x1p-2 27 0 = 1 /\ Binary64.reveal 0x1p-2 28 0 = 1 /\
  Binary64.reveal 0x1.999999999999ap-4 102 0 = 0x1.fffffffffffffp-1 /\
  Binary64.reveal 0x1.999999999999ap-4 103 0 = 0x1.fffffffffffffp-1.
Proof. repeat split; vm_compute; reflexivity. Qed.

(** With [dt = 0.5] it goes from 0 to 1.5 and then down to 0.75. *)
Example reveal_binary64_overshoots :
  Binary64.reveal 0x1p-1 1 0 = 0x1.8p+0 /\ Binary64.reveal 0x1p-1 2 0 = 0x1.8p-1.
Proof. repeat split; vm_compute; reflexivity. Qed.

End Binary64Gesture.

(** ** The camera service *)

Section ServiceProperties.
Import Js MediaPipeService.

Lemma run_app es1 es2 s :
  run (es1 ++ es2) s =
  match run es1 s with Some s' => run es2 s' | None => None end.
Proof.
  revert s; induction es1 as [|e es1 IH]; intros s; [reflexivity|].
  cbn [app run]. destruct (handle e s) as [[s'|]|]; auto.
Qed.

Lemma filter_idem {A} (f : A -> bool) l : filter f (filter f l) = filter f l.
Proof.
  induction l as [|a l IH]; [reflexivity|]. cbn [filter].
  destruct (f a) eqn:E; cbn [filter]; [rewrite E, IH|]; auto.
Qed.

Lemma stopStreamAt_length i l : List.length (stopStreamAt i l) = List.length l.
Proof.
  revert i; induction l as [|st l IH]; intros [|i]; cbn; auto.
Qed.

Lemma stopTracks_repeat n : stopTracks (repeat true n) = repeat false n.
Proof. induction n as [|n IH]; cbn; [|unfold stopTracks in IH; rewrite IH]; auto. Qed.

Lemma stopStreamAt_last l st :
  stopStreamAt (List.length l) (l ++ [st]) = l ++ [stopTracks st].
Proof. induction l as [|a l IH]; cbn; [|rewrite IH]; auto. Qed.

Ltac service_cases s :=
  destruct s as [[p|] [[[so|] pa en vw vh cf]|] [[|rid]|] st ip lp ss sc na fs].

(** [stop()] never throws. *)
Lemma stop_total s : exists s', stop s = Normal s'.
Proof. service_cases s; cbn; eauto. Qed.

(** What [stop()] leaves alone, and what it guarantees. *)
Lemma stop_effect s s' :
  stop s = Normal s' ->
  isStopped s' = true /\ initPhase s' = initPhase s /\
  loopPhase s' = loopPhase s /\ framesSent s' = framesSent s /\
  requestAnimationId s' = requestAnimationId s /\
  List.length (streams s') = List.length (streams s) /\
  (scheduled s = [] -> scheduled s' = []) /\
  (forall v, videoElement s' = Some v -> srcObject v = None).
Proof.
  service_cases s; cbn; intros [= <-]; cbn;
    rewrite ?stopStreamAt_length; repeat split; auto;
    try (intros ->; reflexivity); try (intros v [= <-]; reflexivity);
    try discriminate.
Qed.

(** A second [stop()] changes nothing. *)
Lemma stop_idempotent s s' : stop s = Normal s' -> stop s' = Normal s'.
Proof.
  service_cases s; cbn; intros [= <-]; cbn;
    unfold cancelAnimationFrame, set_scheduled; cbn;
    rewrite ?filter_idem; reflexivity.
Qed.

(** While the service is stopped and no loop is in flight, no event
    sends a frame or schedules one. *)
Lemma stopped_idle_step e s s' :
  isStopped s = true -> loopPhase s = LoopIdle -> scheduled s = [] ->
  handle e s = Some (Normal s') ->
  isStopped s' = true /\ loopPhase s' = LoopIdle /\ scheduled s' = [] /\
  framesSent s' = framesSent s.
Proof.
  intros Hs Hl Hq.
  destruct e as [ | n | | | | id]; cbn [handle].
  - intros [= H]. destruct (stop_effect _ _ H) as (? & _ & ? & ? & _ & _ & ? & _).
    repeat split; auto; congruence.
  - destruct (initPhase s); try discriminate.
    unfold onStream. cbn. rewrite Hs. intros [= <-]. cbn. auto.
  - destruct (initPhase s); try discriminate.
    intros [= <-]. cbn. auto.
  - destruct (initPhase s); try discriminate.
    unfold onLoadedMetadata.
    destruct (videoElement s); cbn; rewrite Hs; cbn; intros [= <-]; cbn; auto.
  - rewrite Hl. discriminate.
  - rewrite Hq. discriminate.
Qed.

Lemma stopped_idle_run es : forall s s',
  isStopped s = true -> loopPhase s = LoopIdle -> scheduled s = [] ->
  run es s = Some s' ->
  isStopped s' = true /\ loopPhase s' = LoopIdle /\ scheduled s' = [] /\
  framesSent s' = framesSent s.
Proof.
  induction es as [|e es IH]; intros s s' Hs Hl Hq; cbn [run].
  - intros [= <-]; auto.
  - destruct (handle e s) as [[s1|]|] eqn:He; try discriminate.
    intros Hrun.
    destruct (stopped_idle_step _ _ _ Hs Hl Hq He) as (? & ? & ? & Hf).
    rewrite <- Hf. eapply IH; eauto.
Qed.

(** Any number of [stop()] calls in a row go through. *)
Lemma run_stops k : forall s,
  exists s', run (repeat Stop k) s = Some s' /\
    (k <> O -> isStopped s' = true) /\ (k = O -> s' = s) /\
    initPhase s' = initPhase s /\ loopPhase s' = loopPhase s /\
    framesSent s' = framesSent s /\
    List.length (streams s') = List.length (streams s) /\
    (scheduled s = [] -> scheduled s' = []).
Proof.
  induction k as [|k IH]; intros s.
  - exists s; cbn; repeat split; auto; congruence.
  - destruct (stop_total s) as [s1 H1].
    destruct (stop_effect _ _ H1) as (Hst & Hip & Hlp & Hfs & _ & Hlen & Hsc & _).
    destruct (IH s1) as (s' & Hrun & Hk & Hk0 & ? & ? & ? & ? & ?).
    exists s'. cbn [repeat run handle]. rewrite H1.
    repeat split; try congruence; auto.
    intros _. destruct k; [rewrite Hk0; auto | apply Hk; discriminate].
Qed.

(** C9. When [stop()] is called (once or more) while [getUserMedia] is
    pending, the stream that arrives afterwards has every track stopped on
    arrival, [initialize] returns at once, and whatever happens later the
    service sends no frame and schedules no animation frame.  Moreover
    [stop()] never throws, and a second [stop()] leaves the state as the
    first one left it. *)
Theorem stop_while_camera_pending
  (video : HTMLVideoElement) (s0 : t) (k n : nat) :
  loopPhase s0 = LoopIdle -> scheduled s0 = [] ->
  (exists s3,
     run (repeat Stop (S k) ++ [StreamGranted n]) (initialize video s0) = Some s3 /\
     nth_error (streams s3) (List.length (streams s0)) = Some (repeat false n) /\
     initPhase s3 = Resolved /\
     forall es s4, run es s3 = Some s4 ->
       framesSent s4 = framesSent s0 /\ scheduled s4 = [] /\
       loopPhase s4 = LoopIdle)
  /\ (forall s, exists s', stop s = Normal s' /\ stop s' = Normal s').
Proof.
  intros Hl Hq. split.
  - destruct (run_stops (S k) (initialize video s0))
      as (s2 & Hrun & Hst & _ & Hip & Hlp & Hfs & Hlen & Hsc).
    specialize (Hst ltac:(discriminate)). cbn in Hip, Hlp, Hfs, Hlen.
    specialize (Hsc Hq).
    set (s3 := set_initPhase Resolved
                 (set_streams (streams s2 ++ [repeat false n]) s2)).
    assert (H3 : run [StreamGranted n] s2 = Some s3).
    { cbn [run handle]. rewrite Hip. unfold onStream. cbn.
      rewrite Hst. cbn. rewrite stopStreamAt_last, stopTracks_repeat.
      reflexivity. }
    exists s3. rewrite run_app, Hrun, H3. repeat split.
    + cbn. rewrite <- Hlen, nth_error_app2 by lia.
      rewrite Nat.sub_diag. reflexivity.
    + destruct (stopped_idle_run es s3 s4) as (_ & _ & _ & Hf); auto.
      * cbn. congruence.
      * cbn in Hf. congruence.
    + destruct (stopped_idle_run es s3 s4) as (_ & _ & Hs4 & _); auto.
      cbn. congruence.
    + destruct (stopped_idle_run es s3 s4) as (_ & Hl4 & _ & _); auto.
      cbn. congruence.
  - intros s. destruct (stop_total s) as [s' H]. exists s'.
    split; [assumption | eapply stop_idempotent; eassumption].
Qed.

Lemma stop_while_camera_pending_witness :
  let video := mkVideo None true false 0 0 0 in
  (exists s3,
     run (repeat Stop 2 ++ [StreamGranted 1]) (initialize video new) = Some s3 /\
     nth_error (streams s3) (List.length (streams new)) = Some (repeat false 1) /\
     initPhase s3 = Resolved /\
     forall es s4, run es s3 = Some s4 ->
       framesSent s4 = framesSent new /\ scheduled s4 = [] /\
       loopPhase s4 = LoopIdle)
  /\ (forall s, exists s', stop s = Normal s' /\ stop s' = Normal s').
Proof.
  intros video.
  apply (stop_while_camera_pending video new 1 1); reflexivity.
Defined.

(** The same run, evaluated: one stream, its single track stopped. *)
Example stop_then_stream_granted :
  option_map streams
    (run [Stop; StreamGranted 1; LoadedMetadata]
       (initialize (mkVideo None true false 0 0 0) new))
  = None
  /\ option_map (fun s => (streams s, framesSent s, initPhase s))
       (run [Stop; StreamGranted 1] (initialize (mkVideo None true false 0 0 0) new))
     = Some ([[false]], 0%nat, Resolved).
Proof. split; reflexivity. Qed.

(** Without the [stop()], the loop does start. *)
Example stream_granted_starts_loop :
  option_map (fun s => (streams s, framesSent s, loopPhase s))
    (run [StreamGranted 1; LoadedMetadata]
       (initialize (mkVideo None true false 0 0 0) new))
  = Some ([[true]], 1%nat, AwaitingSend).
Proof. reflexivity. Qed.

End ServiceProperties.

(** ** The fragment shader *)

Section ShaderProperties.
Import Glsl LiquidShader.

Lemma vec4_eq (a b : vec4) :
  r4 a = r4 b -> g4 a = g4 b -> b4 a = b4 b -> a4 a = a4 b -> a = b.
Proof. destruct a, b; cbn; intros; subst; reflexivity. Qed.

Lemma mix4_zero (a b : vec4) : mix4 a b 0 = a.
Proof. apply vec4_eq; cbn; unfold mix; ring. Qed.

Lemma mix4_one (a b : vec4) : mix4 a b 1 = b.
Proof. apply vec4_eq; cbn; unfold mix; ring. Qed.

(** C3. Where the mask samples 0, the fragment is the edge-blended
    colour (clean background mixed with the liquid colour by the edge
    intensity), whatever the reveal factor: it equals what the shader
    writes with a reveal factor of 0, and the video colour has no part in
    it. *)
Theorem main_outside_mask
  (time reveal : R) (bg video video' mask : sampler2D) (res uv : vec2) :
  r4 (mask uv) = 0 ->
  main (mkInputs time bg video mask reveal res uv)
  = edgeBlended (mkInputs time bg video' mask 0 res uv).
Proof.
  intros Hm. unfold main, maskVal, texture2D. cbn [uMaskTexture vUv uRevealFactor].
  rewrite Hm, Rmult_0_r, mix4_zero. reflexivity.
Qed.

Lemma main_outside_mask_witness :
  let bg : sampler2D := fun _ => mkvec4 0.25 0.25 0.25 1 in
  let video : sampler2D := fun _ => mkvec4 1 0 0 1 in
  let video' : sampler2D := fun _ => mkvec4 0 1 0 1 in
  let mask : sampler2D := fun _ => mkvec4 0 0 0 1 in
  main (mkInputs 0 bg video mask 1 (mkvec2 640 480) (mkvec2 0.5 0.5))
  = edgeBlended (mkInputs 0 bg video' mask 0 (mkvec2 640 480) (mkvec2 0.5 0.5)).
Proof.
  intros bg video video' mask.
  apply (main_outside_mask 0 1 bg video video' mask); reflexivity.
Defined.

(** Inside the mask the video does contribute: at full reveal and full
    mask the fragment is the video colour. *)
Lemma main_full_reveal (u : Inputs) :
  uRevealFactor u = 1 -> maskVal u = 1 -> main u = personColor u.
Proof.
  intros Hr Hm. unfold main. rewrite Hr, Hm, Rmult_1_r. apply mix4_one.
Qed.

(** The description's blend and smooth threshold are GLSL's [mix] and
    [smoothstep]. *)
Lemma blend_toward_mix4 c d k : blend_toward c d k = mix4 c d k.
Proof. reflexivity. Qed.

Lemma smooth_threshold_smoothstep lo hi x :
  lo < hi -> smooth_threshold lo hi x = smoothstep lo hi x.
Proof.
  intros H. unfold smooth_threshold, smoothstep, clamp.
  assert (Hd : 0 < / (hi - lo)) by (apply Rinv_0_lt_compat; lra).
  destruct (Rle_dec x lo) as [Hx|Hx].
  - assert ((x - lo) / (hi - lo) <= 0).
    { unfold Rdiv. assert (x - lo <= 0) by lra. nra. }
    rewrite Rmax_right by lra. rewrite Rmin_left by lra. ring.
  - destruct (Rle_dec hi x) as [Hh|Hh].
    + assert (1 <= (x - lo) / (hi - lo)).
      { unfold Rdiv. replace 1 with ((hi - lo) * / (hi - lo)) by (field; lra).
        apply Rmult_le_compat_r; lra. }
      rewrite Rmax_left by lra. rewrite Rmin_right by lra. ring.
    + assert (0 <= (x - lo) / (hi - lo) <= 1).
      { unfold Rdiv. split; [nra|].
        replace 1 with ((hi - lo) * / (hi - lo)) by (field; lra).
        apply Rmult_le_compat_r; lra. }
      rewrite Rmax_left by lra. rewrite Rmin_left by lra. reflexivity.
Qed.

Lemma smooth_threshold_inside lo hi x :
  lo < x < hi ->
  smooth_threshold lo hi x
  = (x - lo) / (hi - lo) * ((x - lo) / (hi - lo)) * (3 - 2 * ((x - lo) / (hi - lo))).
Proof.
  intros H. unfold smooth_threshold.
  destruct (Rle_dec x lo); [lra|]. destruct (Rle_dec hi x); [lra|]. reflexivity.
Qed.

Ltac same_sample :=
  unfold neighbour, render_pixel, n, s, e, w, nw, ne, sw, se, mask_at, offset, px,
    radius, scale2, map2, add2, sub2, zip2, texture2D;
  cbn [x2 y2]; do 2 apply f_equal; apply f_equal2; ring.

(** The eight samples of [main] are the eight neighbours, with the render
    pixel for texel. *)
Lemma neighbours_of_main u :
  let sample := neighbour (render_pixel u) u in
  n u = sample 0%Z 1%Z /\ s u = sample 0%Z (-1)%Z /\
  e u = sample 1%Z 0%Z /\ w u = sample (-1)%Z 0%Z /\
  nw u = sample (-1)%Z 1%Z /\ ne u = sample 1%Z 1%Z /\
  sw u = sample (-1)%Z (-1)%Z /\ se u = sample 1%Z (-1)%Z.
Proof. repeat split; same_sample. Qed.

Lemma isEdge_described u : isEdge u = described_edge (render_pixel u) u.
Proof.
  destruct (neighbours_of_main u) as (Hn & Hs & He & Hw & Hnw & Hne & Hsw & Hse).
  unfold described_edge. rewrite smooth_threshold_smoothstep by lra.
  unfold isEdge, edgeMag, length2, gx, gy. cbn [x2 y2].
  rewrite Hn, Hs, He, Hw, Hnw, Hne, Hsw, Hse.
  unfold column, row, kernel_weight. cbn [Z.eqb orb].
  do 2 f_equal; ring.
Qed.

(** On a mask that is a horizontal ramp the gradient is horizontal and
    proportional to the radius. *)
Lemma described_edge_ramp texel u :
  (forall uv, r4 (uMaskTexture u uv) = x2 uv) -> 0 <= x2 texel ->
  described_edge texel u = smooth_threshold 0 2.5 (40 * x2 texel).
Proof.
  intros Hramp Ht. unfold described_edge, column, row, kernel_weight, neighbour.
  cbn [Z.eqb orb]. rewrite !Hramp. cbn [x2 y2]. f_equal.
  match goal with |- sqrt ?a = _ =>
    replace a with ((40 * x2 texel) * (40 * x2 texel)) by ring end.
  apply sqrt_square. lra.
Qed.

Lemma liquidColor_described u :
  liquidColor u = described_liquid u (combinedNoise u).
Proof.
  unfold described_liquid. rewrite smooth_threshold_smoothstep by lra.
  reflexivity.
Qed.

(** C4, as the code has it.  The shader's [main] is the described
    composition with the sampling radius counted in pixels of the render
    target: the edge intensity is the smooth threshold from 0.0 to 2.5 of
    the magnitude of the eight-neighbour gradient of the mask (cardinals
    weighted 2, diagonals 1), the neighbours being five times
    [1 / uResolution] away; the clean background is blended toward the
    liquid colour (the distorted and highlighted background) by the edge
    intensity, and the result toward the video colour by reveal factor
    times mask value. *)
Theorem main_is_described_composite (u : Inputs) :
  main u
  = described_composite (render_pixel u) u (described_liquid u (combinedNoise u)).
Proof.
  unfold main, described_composite.
  rewrite <- isEdge_described, <- liquidColor_described.
  reflexivity.
Qed.

(** C4 as stated fails: the radius is not five texels of the mask
    surface.  A tick with a 1280 x 720 video on a 1920 x 1080 render target
    leaves the mask surface at the video's size and [uResolution] at the
    render size; on a mask that is a horizontal ramp the shader's edge
    intensity (gradient 40/1920, intensity about 0.000207) is then below
    what five mask texels give (gradient 40/1280, intensity about
    0.000465). *)
Lemma edge_radius_counts_render_pixels :
  let video := mkVideo (Some O) false false 1280 720 0 in
  let props := FullScreenQuad.mkProps ACTIVE (Some video) (Some EmptyDataUrl)
                 (Some (mkResults 0 (Some 7%nat) None)) false in
  let f := FullScreenQuad.mkFrame 0 0 (1920, 1080) true in
  let q := FullScreenQuad.useFrame props f
             (FullScreenQuad.mk (Some FullScreenQuad.newUniforms) (Some O)
                None None createCanvas 0
                [FullScreenQuad.mkTexture (FullScreenQuad.FromUrl EmptyDataUrl) 1]) in
  let ramp : sampler2D := fun uv => mkvec4 (x2 uv) 0 0 1 in
  let grey : sampler2D := fun _ => mkvec4 0.5 0.5 0.5 1 in
  let u := mkInputs 0 grey grey ramp 0 (mkvec2 1920 1080) (mkvec2 0.5 0.5) in
  FullScreenQuad.maskCanvasRef q = mkCanvas 1280 720 (Some 7%nat) /\
  option_map FullScreenQuad.uResolution (FullScreenQuad.materialRef q)
    = Some (1920, 1080) /\
  isEdge u < 0.00021 /\
  0.00046 < described_edge (mask_texel 1280 720) u /\
  isEdge u <> described_edge (mask_texel 1280 720) u.
Proof.
  intros video props f q ramp grey u.
  assert (W : INR 1280 = 1280) by (rewrite INR_IZR_INZ; reflexivity).
  assert (E1 : isEdge u = 179 / 864000).
  { rewrite isEdge_described, described_edge_ramp; [|reflexivity|cbn; lra].
    rewrite smooth_threshold_inside by (cbn; lra). cbn. lra. }
  assert (E2 : described_edge (mask_texel 1280 720) u = 119 / 256000).
  { rewrite described_edge_ramp;
      [|reflexivity|unfold mask_texel; cbn [x2]; rewrite W; lra].
    unfold mask_texel; cbn [x2]; rewrite W.
    rewrite smooth_threshold_inside by lra. lra. }
  split; [reflexivity|]. split; [reflexivity|].
  rewrite E1, E2. repeat split; lra.
Qed.

End ShaderProperties.

(** ** The compositor's frame callback *)

Section QuadProperties.
Import FullScreenQuad.


Section Easing.
Variables (props : SceneProps) (fs : nat -> Frame) (q0 : t).
Variables (u0 : Uniforms) (video : HTMLVideoElement) (bg0 : nat).
Hypothesis material_mounted : materialRef q0 = Some u0.
Hypothesis video_present : videoElement props = Some video.
Hypothesis background_loaded : bgTexture q0 = Some bg0.
Hypothesis gesture_held : isTouchingHead props = true.

Let q (n : nat) : t := after props fs n q0.



End Easing.




(** *** Mask ingestion *)

Lemma needsUpdate_other i : forall k store,
  i <> k -> nth_error (needsUpdate i store) k = nth_error store k.
Proof.
  induction i as [|i IH]; intros [|k] [|t rest] H; cbn; auto; try congruence.
Qed.

Lemma has_source_needsUpdate i : forall k store src,
  has_source store k src -> has_source (needsUpdate i store) k src.
Proof.
  unfold has_source.
  induction i as [|i IH]; intros [|k] [|t0 rest] src (t & H & Hs); cbn in *;
    try discriminate; eauto.
  injection H as <-. eauto.
Qed.

Lemma has_source_snoc store a k src :
  has_source store k src -> has_source (store ++ [a]) k src.
Proof.
  intros (t & H & Hs). exists t; split; [|assumption].
  rewrite nth_error_app1; [assumption|]. apply nth_error_Some. congruence.
Qed.

Lemma has_source_new store src v :
  has_source (store ++ [mkTexture src v]) (List.length store) src.
Proof.
  exists (mkTexture src v); split; [|reflexivity].
  rewrite nth_error_app2, Nat.sub_diag by lia. reflexivity.
Qed.

Lemma quad_consistent_mount : quad_consistent mount.
Proof. repeat split; cbn; intros; discriminate. Qed.

Lemma quad_consistent_distinct q i j :
  quad_consistent q -> maskTextureRef q = Some i -> videoTextureRef q = Some j ->
  j <> i.
Proof.
  intros (_ & _ & Hm & Hv) Hi Hj ->.
  destruct (Hm _ Hi) as (t & Ht & Hs). destruct (Hv _ Hj) as (t' & Ht' & Hs').
  congruence.
Qed.

Create HintDb quad.
#[local] Hint Resolve has_source_needsUpdate has_source_snoc has_source_new : quad.

Lemma quad_consistent_handle e q :
  quad_consistent q -> quad_consistent (handle e q).
Proof.
  intros Hq. pose proof Hq as (H1 & H2 & H3 & H4).
  destruct e as [ | url | props | props f]; cbn [handle].
  - destruct (materialRef q) eqn:Em; [assumption|].
    specialize (H1 eq_refl). repeat split; cbn; auto.
    intros u [= <-]. cbn. congruence.
  - repeat split; cbn; auto with quad.
  - destruct (videoElement props); [|assumption].
    destruct (videoTextureRef q) eqn:Ev; [assumption|].
    repeat split; cbn; auto with quad.
    intros j [= <-]. auto with quad.
  - unfold useFrame.
    destruct (materialRef q) as [u|] eqn:Em; [|assumption].
    destruct (videoElement props) as [video|]; [|assumption].
    destruct (bgTexture q) as [bg|]; [|assumption].
    specialize (H2 u eq_refl).
    destruct (latestResults props) as [r|]; [destruct (segmentationMask r) as [m|]|];
      unfold ingestMask;
      destruct (videoTextureRef q) as [j|] eqn:Ev; cbn;
      try destruct (context2d f); cbn;
      destruct (maskTextureRef q) as [i|] eqn:Ei; cbn;
      repeat split; cbn; try discriminate;
      try (intros ? [= <-]; cbn; congruence);
      try (intros k [= <-]); auto 6 with quad;
      intros k Hk; congruence.
Qed.

Lemma quad_consistent_run es : forall q,
  quad_consistent q -> quad_consistent (run es q).
Proof.
  induction es as [|e es IH]; intros q Hq; [assumption|].
  apply IH, quad_consistent_handle, Hq.
Qed.

(** C10. On a tick whose latest inference result is absent or carries
    no segmentation mask, the callback leaves the mask canvas (size and
    bitmap), the mask texture and the material's mask uniform as they
    were, so the shader samples the mask ingested last; and a tick changes
    the size of the mask canvas only when the result carries a mask and the
    canvas size differs from the video's native size, which it then
    takes. *)
Theorem useFrame_mask_untouched_without_result
  (es : list event) (props : SceneProps) (f : Frame) :
  let q := run es mount in
  let q' := useFrame props f q in
  ((latestResults props = None \/
    exists r, latestResults props = Some r /\ segmentationMask r = None) ->
   maskCanvasRef q' = maskCanvasRef q /\
   maskTextureRef q' = maskTextureRef q /\
   (forall i, maskTextureRef q = Some i ->
      nth_error (textures q') i = nth_error (textures q) i) /\
   (forall u, materialRef q = Some u ->
      exists u', materialRef q' = Some u' /\ uMaskTexture u' = uMaskTexture u))
  /\
  ((width (maskCanvasRef q') <> width (maskCanvasRef q) \/
    height (maskCanvasRef q') <> height (maskCanvasRef q)) ->
   exists r mask video,
     latestResults props = Some r /\ segmentationMask r = Some mask /\
     videoElement props = Some video /\
     (width (maskCanvasRef q) <> videoWidth video \/
      height (maskCanvasRef q) <> videoHeight video) /\
     width (maskCanvasRef q') = videoWidth video /\
     height (maskCanvasRef q') = videoHeight video).
Proof.
  intros q q'.
  assert (Hq : quad_consistent q)
    by (apply quad_consistent_run, quad_consistent_mount).
  pose proof Hq as (H1 & H2 & H3 & H4).
  subst q'. unfold useFrame.
  destruct (materialRef q) as [u|] eqn:Em;
    [|split; [intros _; repeat split; auto; discriminate
             |intros [H|H]; congruence]].
  destruct (videoElement props) as [video|];
    [|split; [intros _; repeat split; auto; intros ? [= <-]; eauto
             |intros [H|H]; congruence]].
  destruct (bgTexture q) as [bg|];
    [|split; [intros _; repeat split; auto; intros ? [= <-]; eauto
             |intros [H|H]; congruence]].
  specialize (H2 u eq_refl).
  split.
  - intros Hno.
    assert (Hskip : match latestResults props with
                    | Some r => segmentationMask r = None
                    | None => True
                    end).
    { destruct Hno as [-> | (r & -> & Hr)]; auto. }
    destruct (latestResults props) as [r|]; [rewrite Hskip|];
      destruct (videoTextureRef q) as [j|] eqn:Ev; cbn;
      repeat split; auto;
      try (intros i Hi; apply needsUpdate_other;
           eapply quad_consistent_distinct; eauto);
      try (intros ? [= <-]; eexists; split; [reflexivity|]; cbn;
           destruct (maskTextureRef q); congruence).
  - destruct (latestResults props) as [r|];
      [destruct (segmentationMask r) as [m|] eqn:Er|].
    + intros Hsz. exists r, m, video. repeat split; auto.
      all: revert Hsz; unfold ingestMask;
        destruct (videoTextureRef q); cbn;
        destruct (Nat.eqb_spec (width (maskCanvasRef q)) (videoWidth video));
        destruct (Nat.eqb_spec (height (maskCanvasRef q)) (videoHeight video));
        cbn; destruct (context2d f); cbn; destruct (maskTextureRef q); cbn;
        intros [Hc|Hc]; auto; congruence.
    + destruct (videoTextureRef q); cbn; intros [H|H]; congruence.
    + destruct (videoTextureRef q); cbn; intros [H|H]; congruence.
Qed.

(** A tick with a mask draws it; the next tick, whose result has no
    mask, finds it still on the canvas, and the texture keeps its
    version. *)
Example mask_survives_tick_without_mask :
  let video := mkVideo (Some O) false false 640 480 0 in
  let with_mask := mkProps ACTIVE (Some video) (Some EmptyDataUrl)
                     (Some (mkResults 0 (Some 7%nat) None)) false in
  let without_mask := mkProps ACTIVE (Some video) (Some EmptyDataUrl)
                        (Some (mkResults 1 None None)) false in
  let f := mkFrame 0 0 (1920, 1080) true in
  let q1 := run [MeshMounted; BackgroundLoaded EmptyDataUrl; Tick with_mask f] mount in
  let q2 := useFrame without_mask f q1 in
  maskCanvasRef q1 = mkCanvas 640 480 (Some 7%nat) /\
  maskCanvasRef q2 = mkCanvas 640 480 (Some 7%nat) /\
  maskTextureRef q2 = Some 1%nat /\
  nth_error (textures q2) 1 = Some (mkTexture FromCanvas 1) /\
  option_map uMaskTexture (materialRef q2) = Some (Some 1%nat).
Proof. cbn. repeat split; reflexivity. Qed.

End QuadProperties.

(** ** The capture state machine *)

Section AppProperties.
Import Js App.

(** The callback never throws. *)
Lemma wrappedOnResults_total r a : exists a', wrappedOnResults r a = Normal a'.
Proof.
  unfold wrappedOnResults. rewrite hasPeople_value. cbn [bind].
  destruct (stateRef (onResults r a)); eauto.
  - repeat match goal with
           | |- context [if ?c then _ else _] => destruct c
           end; eauto.
  - destruct (poseLandmarks r) as [l|]; cbn [truthy]; eauto.
    destruct (checkFingerOnHead_total (Some l)) as [b ->]. cbn; eauto.
Qed.

(** One clear tick while waiting: the counter goes up by one, and the
    state is requested to change once the counter exceeds 30. *)
Lemma wrappedOnResults_clear r a :
  stateRef a = WAITING_FOR_CLEAR_VIEW -> nobody r ->
  exists a', wrappedOnResults r a = Normal a' /\
    stateRef a' = WAITING_FOR_CLEAR_VIEW /\
    noPersonTimerRef a' = S (noPersonTimerRef a) /\
    appState a' = (if Nat.ltb 30 (S (noPersonTimerRef a))
                   then CAPTURING_BACKGROUND else appState a).
Proof.
  intros Hs Hn. unfold wrappedOnResults. rewrite Hn. cbn [bind].
  cbn [onResults stateRef set_latestResultsRef]. rewrite Hs. cbn [negb].
  cbn [noPersonTimerRef set_noPersonTimerRef]. rewrite Nat.add_1_r.
  change (noPersonTimerRef (onResults r a)) with (noPersonTimerRef a).
  destruct (Nat.ltb 30 (S (noPersonTimerRef a)));
    eexists; (split; [reflexivity|]); cbn; auto.
Qed.

Lemma deliver_clear rs : forall a,
  stateRef a = WAITING_FOR_CLEAR_VIEW -> Forall nobody rs ->
  exists a', deliver rs a = Normal a' /\
    stateRef a' = WAITING_FOR_CLEAR_VIEW /\
    noPersonTimerRef a' = (noPersonTimerRef a + List.length rs)%nat /\
    ((noPersonTimerRef a + List.length rs <= 30)%nat -> appState a' = appState a) /\
    ((30 < noPersonTimerRef a + List.length rs)%nat -> rs <> [] ->
     appState a' = CAPTURING_BACKGROUND).
Proof.
  induction rs as [|r rs IH]; intros a Hs Hall.
  - exists a. cbn. repeat split; auto; try lia. congruence.
  - inversion Hall as [|? ? Hr Hrs]; subst.
    destruct (wrappedOnResults_clear r a Hs Hr) as (a1 & H1 & Hs1 & Hc1 & Ha1).
    destruct (IH a1 Hs1 Hrs) as (a' & H' & Hs' & Hc' & Hle & Hgt).
    exists a'. cbn [deliver]. rewrite H1. cbn [bind List.length].
    split; [assumption|]. split; [assumption|]. split; [lia|].
    split.
    + intros Hb. rewrite Hle by lia. rewrite Ha1.
      destruct (Nat.ltb_spec 30 (S (noPersonTimerRef a))); [lia|reflexivity].
    + intros Hb _. destruct rs as [|r' rs'].
      * cbn in H'. injection H' as <-. rewrite Ha1.
        cbn in Hb. destruct (Nat.ltb_spec 30 (S (noPersonTimerRef a))); [reflexivity|lia].
      * apply Hgt; [cbn in *; lia | discriminate].
Qed.

(** C1, as the code has it.  In WaitingForClearView with the counter
    at 0, a run of consecutive ticks without a person leaves the state
    alone through tick 30 and requests CapturingBackground from tick 31 on
    (the counter must exceed 30); and a tick in WaitingForClearView on
    which a person is detected sets the counter to exactly 0. *)
Theorem clear_view_debounce (a : App.t) (rs : list MediaPipeResults) :
  stateRef a = WAITING_FOR_CLEAR_VIEW ->
  appState a = WAITING_FOR_CLEAR_VIEW ->
  noPersonTimerRef a = O ->
  Forall nobody rs ->
  (exists a', deliver rs a = Normal a' /\
     noPersonTimerRef a' = List.length rs /\
     ((List.length rs <= 30)%nat -> appState a' = WAITING_FOR_CLEAR_VIEW) /\
     ((31 <= List.length rs)%nat -> appState a' = CAPTURING_BACKGROUND))
  /\ (forall r b, stateRef b = WAITING_FOR_CLEAR_VIEW -> somebody r ->
      exists b', wrappedOnResults r b = Normal b' /\
        noPersonTimerRef b' = O /\ appState b' = appState b).
Proof.
  intros Hs Ha Hc Hall. split.
  - destruct (deliver_clear rs a Hs Hall) as (a' & H' & _ & Hc' & Hle & Hgt).
    exists a'. rewrite Hc in *. cbn in *. repeat split; auto.
    + intros H. rewrite Hle by lia. assumption.
    + intros H. apply Hgt; [lia|]. intros ->. cbn in H. lia.
  - intros r b Hb Hr. unfold wrappedOnResults. rewrite Hr. cbn.
    rewrite Hb. cbn. eauto.
Qed.

Lemma clear_view_debounce_witness :
  let a := App.mk WAITING_FOR_CLEAR_VIEW PleaseLeaveFrame None false 0 None
             WAITING_FOR_CLEAR_VIEW 0 false in
  let rs := repeat (mkResults 0 None None) 31 in
  (exists a', deliver rs a = Normal a' /\
     noPersonTimerRef a' = List.length rs /\
     ((List.length rs <= 30)%nat -> appState a' = WAITING_FOR_CLEAR_VIEW) /\
     ((31 <= List.length rs)%nat -> appState a' = CAPTURING_BACKGROUND))
  /\ (forall r b, stateRef b = WAITING_FOR_CLEAR_VIEW -> somebody r ->
      exists b', wrappedOnResults r b = Normal b' /\
        noPersonTimerRef b' = O /\ appState b' = appState b).
Proof.
  intros a rs.
  apply (clear_view_debounce a rs); try reflexivity.
  apply Forall_forall. intros r Hr. apply repeat_spec in Hr. subst r. reflexivity.
Defined.

(** C1 as stated fails: after initialisation, 30 consecutive ticks
    without a person leave the page in WaitingForClearView (counter 30);
    the request for CapturingBackground comes with tick 31. *)
Lemma thirty_clear_ticks_keep_waiting :
  let env := mkEnv (Some (mkVideo (Some O) false false 640 480 0)) true in
  let clear := mkResults 0 None None in
  let state_and_counter p :=
    (appState (Page.app p), noPersonTimerRef (Page.app p)) in
  option_map state_and_counter
    (Page.run ([Page.InitializeResolved; Page.Effects env]
               ++ repeat (Page.Results clear) 30) (Page.initial env))
  = Some (WAITING_FOR_CLEAR_VIEW, 30%nat)
  /\
  option_map state_and_counter
    (Page.run ([Page.InitializeResolved; Page.Effects env]
               ++ repeat (Page.Results clear) 31) (Page.initial env))
  = Some (CAPTURING_BACKGROUND, 31%nat).
Proof. split; reflexivity. Qed.

(** C7, as the code has it.  In CapturingBackground the capture effect
    looks at the video element and at the drawing context, not at the
    size of the frame: with both at hand it stores a plate and moves to
    Active, the plate of a frame without pixels being the empty data URL;
    with either missing it changes nothing, so no plate is stored and the
    state stays CapturingBackground. *)
Theorem capture_effect_ignores_frame_size (env : Env) (a : App.t) :
  appState a = CAPTURING_BACKGROUND ->
  (forall video, videoRef env = Some video -> context2d env = true ->
     let a' := captureBackgroundEffect env a in
     appState a' = ACTIVE /\
     exists url, backgroundDataUrl a' = Some url /\
       (videoWidth video = O \/ videoHeight video = O -> url = EmptyDataUrl) /\
       (videoWidth video <> O -> videoHeight video <> O ->
        url = PngDataUrl (videoWidth video) (videoHeight video)
                (Some (currentFrame video))))
  /\ (videoRef env = None \/ context2d env = false ->
      captureBackgroundEffect env a = a).
Proof.
  intros Ha. split.
  - intros video Hv Hc. unfold captureBackgroundEffect. rewrite Ha, Hv, Hc.
    cbn. split; [reflexivity|]. eexists; split; [reflexivity|].
    unfold toDataURL, drawImage, setHeight, setWidth. cbn.
    destruct (Nat.eqb_spec (videoWidth video) 0);
      destruct (Nat.eqb_spec (videoHeight video) 0); cbn;
      try rewrite e; try rewrite e0; cbn; rewrite ?Nat.eqb_refl, ?orb_true_r; cbn.
    all: split; [intros [H|H]; congruence || reflexivity | intros; congruence || idtac].
    all: try reflexivity.
    destruct (Nat.eqb_spec (videoWidth video) 0);
      destruct (Nat.eqb_spec (videoHeight video) 0); cbn; congruence.
  - intros [Hv | Hc]; unfold captureBackgroundEffect; rewrite Ha.
    + rewrite Hv. reflexivity.
    + rewrite Hc. destruct (videoRef env); reflexivity.
Qed.

Lemma capture_effect_ignores_frame_size_witness :
  let env := mkEnv (Some (mkVideo (Some O) false false 0 0 0)) true in
  let a := App.mk CAPTURING_BACKGROUND PleaseLeaveFrame None false 0 None
             CAPTURING_BACKGROUND 31 false in
  (forall video, videoRef env = Some video -> context2d env = true ->
     let a' := captureBackgroundEffect env a in
     appState a' = ACTIVE /\
     exists url, backgroundDataUrl a' = Some url /\
       (videoWidth video = O \/ videoHeight video = O -> url = EmptyDataUrl) /\
       (videoWidth video <> O -> videoHeight video <> O ->
        url = PngDataUrl (videoWidth video) (videoHeight video)
                (Some (currentFrame video))))
  /\ (videoRef env = None \/ context2d env = false ->
      captureBackgroundEffect env a = a).
Proof.
  intros env a.
  apply (capture_effect_ignores_frame_size env a). reflexivity.
Defined.

(** C7 as stated fails: the page reaches CapturingBackground while the
    video element reports a frame of size 0 x 0; the capture effect stores
    the empty data URL as plate and moves to Active. *)
Lemma zero_size_frame_is_captured :
  let env := mkEnv (Some (mkVideo (Some O) false false 640 480 0)) true in
  let env0 := mkEnv (Some (mkVideo (Some O) false false 0 0 0)) true in
  let clear := mkResults 0 None None in
  let state_and_plate p :=
    (appState (Page.app p), backgroundDataUrl (Page.app p)) in
  option_map state_and_plate
    (Page.run ([Page.InitializeResolved; Page.Effects env]
               ++ repeat (Page.Results clear) 31) (Page.initial env))
  = Some (CAPTURING_BACKGROUND, None)
  /\
  option_map state_and_plate
    (Page.run ([Page.InitializeResolved; Page.Effects env]
               ++ repeat (Page.Results clear) 31
               ++ [Page.Effects env0]) (Page.initial env))
  = Some (ACTIVE, Some EmptyDataUrl).
Proof. split; reflexivity. Qed.

(** With a frame that has pixels the same run stores its picture. *)
Example sized_frame_is_captured :
  let env := mkEnv (Some (mkVideo (Some O) false false 640 480 7)) true in
  let clear := mkResults 0 None None in
  option_map (fun p => (appState (Page.app p), backgroundDataUrl (Page.app p)))
    (Page.run ([Page.InitializeResolved; Page.Effects env]
               ++ repeat (Page.Results clear) 31
               ++ [Page.Effects env]) (Page.initial env))
  = Some (ACTIVE, Some (PngDataUrl 640 480 (Some 7%nat))).
Proof. reflexivity. Qed.

(** *** The invariant of the page *)

Lemma wrappedOnResults_fields r a a' :
  wrappedOnResults r a = Normal a' ->
  stateRef a' = stateRef a /\
  initializePending a' = initializePending a /\
  backgroundDataUrl a' = backgroundDataUrl a /\
  ((appState a' = appState a /\
    (noPersonTimerRef a' = noPersonTimerRef a \/
     stateRef a = WAITING_FOR_CLEAR_VIEW))
   \/ (stateRef a = WAITING_FOR_CLEAR_VIEW /\
       appState a' = CAPTURING_BACKGROUND)).
Proof.
  unfold wrappedOnResults. rewrite hasPeople_value. cbn [bind].
  change (stateRef (onResults r a)) with (stateRef a).
  destruct (stateRef a) eqn:Es;
    try (intros [= <-]; cbn; solve [intuition auto]).
  - repeat match goal with
           | |- context [if ?c then _ else _] => destruct c
           end; intros [= <-]; cbn; solve [intuition auto].
  - destruct (poseLandmarks r) as [l|]; cbn [truthy].
    + destruct (checkFingerOnHead_total (Some l)) as [b ->].
      intros [= <-]; cbn; solve [intuition auto].
    + intros [= <-]; cbn; solve [intuition auto].
Qed.

Ltac settle := solve [intuition (discriminate || congruence)].

Lemma invariant_initial env : Page.invariant (Page.initial env).
Proof.
  unfold Page.invariant, Page.initial, initializeEffect.
  destruct (videoRef env); cbn; settle.
Qed.

Lemma invariant_step e p p' :
  Page.invariant p -> Page.step e p = Some p' -> Page.invariant p'.
Proof.
  destruct p as [a q]. unfold Page.invariant. cbn [Page.app Page.quad].
  intros (I1 & I2 & I3 & I4 & I5 & I6 & I7).
  destruct e; cbn [Page.step Page.app Page.quad].
  - destruct (wrappedOnResults results a) as [a1|] eqn:Hw; [|discriminate].
    intros [= <-].
    destruct (wrappedOnResults_fields _ _ _ Hw) as (F1 & F2 & F3 & F4).
    unfold Page.reconcile, experienceRendered. cbn [Page.app Page.quad].
    rewrite F1, F2, F3.
    destruct F4 as [[F4 F5] | [F4 F5]]; rewrite ?F4, ?F5.
    + destruct (appState a) eqn:Ea; cbn [AppState_eqb andb]; settle.
    + cbn [AppState_eqb andb]. settle.
  - intros [= <-].
    unfold Page.reconcile, experienceRendered, flushEffects.
    destruct (AppState_eqb (appState a) (stateRef a)) eqn:Eq.
    + cbn [Page.app Page.quad].
      destruct (appState a) eqn:Ea; cbn [AppState_eqb andb]; settle.
    + unfold captureBackgroundEffect. cbn [appState set_stateRef].
      destruct (appState a) eqn:Ea; cbn; rewrite ?Ea;
        cbn [AppState_eqb andb]; try settle.
      destruct (videoRef env); [destruct (context2d env)|]; cbn; rewrite ?Ea;
        cbn [AppState_eqb andb]; settle.
  - destruct (initializePending a) eqn:Ep; [|discriminate]. intros [= <-].
    specialize (I1 eq_refl). cbn. settle.
  - destruct (initializePending a) eqn:Ep; [|discriminate]. intros [= <-].
    specialize (I1 eq_refl). cbn. settle.
  - unfold retryRendered.
    destruct (appState a) eqn:Ea; cbn; try discriminate. intros [= <-].
    unfold Page.reconcile, experienceRendered, retry, initializeEffect.
    destruct (videoRef env); cbn; rewrite ?Ea; cbn; settle.
  - unfold Page.onQuad. cbn. destruct q; [|discriminate]. intros [= <-].
    cbn. settle.
  - destruct (backgroundDataUrl a) eqn:Eb; [|discriminate].
    unfold Page.onQuad. cbn. destruct q; [|discriminate]. intros [= <-].
    cbn. rewrite Eb. settle.
  - unfold Page.onQuad. cbn. destruct q; [|discriminate]. intros [= <-].
    cbn. settle.
  - unfold Page.onQuad. cbn. destruct q; [|discriminate]. intros [= <-].
    cbn. settle.
Qed.

Lemma invariant_run es : forall p p',
  Page.invariant p -> Page.run es p = Some p' -> Page.invariant p'.
Proof.
  induction es as [|e es IH]; intros p p' Hp; cbn [Page.run].
  - intros [= <-]; assumption.
  - destruct (Page.step e p) as [p1|] eqn:He; [|discriminate].
    apply IH. eapply invariant_step; eassumption.
Qed.

Lemma invariant_reachable p : Page.reachable p -> Page.invariant p.
Proof.
  intros (env & es & Hrun).
  eapply invariant_run; [apply invariant_initial | eassumption].
Qed.

Lemma run_snoc es e : forall p p' p'',
  Page.run es p = Some p' -> Page.step e p' = Some p'' ->
  Page.run (es ++ [e]) p = Some p''.
Proof.
  induction es as [|e0 es IH]; intros p p' p''; cbn [Page.run app].
  - intros [= <-] ->. reflexivity.
  - destruct (Page.step e0 p) as [p1|]; [|discriminate]. apply IH.
Qed.

Lemma reachable_step e p p' :
  Page.reachable p -> Page.step e p = Some p' -> Page.reachable p'.
Proof.
  intros (env & es & Hrun) He. exists env, (es ++ [e]).
  eapply run_snoc; eassumption.
Qed.

(** The plate is written by one step only: the capture effect, on its
    way from CapturingBackground to Active. *)
Lemma step_plate e p p' :
  Page.step e p = Some p' ->
  backgroundDataUrl (Page.app p') = backgroundDataUrl (Page.app p)
  \/ (appState (Page.app p) = CAPTURING_BACKGROUND /\
      appState (Page.app p') = ACTIVE).
Proof.
  destruct p as [a q]. destruct e; cbn [Page.step Page.app Page.quad].
  - destruct (wrappedOnResults results a) as [a1|] eqn:Hw; [|discriminate].
    intros [= <-]. left. apply (wrappedOnResults_fields _ _ _ Hw).
  - intros [= <-]. cbn [Page.reconcile Page.app].
    unfold flushEffects, captureBackgroundEffect.
    destruct (AppState_eqb (appState a) (stateRef a)); [auto|].
    cbn [appState set_stateRef].
    destruct (appState a) eqn:Ea; auto.
    destruct (videoRef env); [destruct (context2d env)|]; cbn; auto.
  - destruct (initializePending a); [|discriminate]. intros [= <-]. auto.
  - destruct (initializePending a); [|discriminate]. intros [= <-]. auto.
  - destruct (retryRendered a); [|discriminate]. intros [= <-].
    left. cbn. unfold retry, initializeEffect. destruct (videoRef env); auto.
  - unfold Page.onQuad. cbn. destruct q; [|discriminate]. intros [= <-]. auto.
  - destruct (backgroundDataUrl a) eqn:Eb; [|discriminate].
    unfold Page.onQuad. cbn. destruct q; [|discriminate]. intros [= <-].
    cbn. auto.
  - unfold Page.onQuad. cbn. destruct q; [|discriminate]. intros [= <-]. auto.
  - unfold Page.onQuad. cbn. destruct q; [|discriminate]. intros [= <-]. auto.
Qed.

(** Active is left by no step. *)
Lemma step_active e p p' :
  Page.invariant p -> appState (Page.app p) = ACTIVE ->
  Page.step e p = Some p' -> appState (Page.app p') = ACTIVE.
Proof.
  destruct p as [a q]. unfold Page.invariant. cbn [Page.app Page.quad].
  intros (I1 & I2 & I3 & I4 & I5 & I6 & I7) Ha.
  destruct e; cbn [Page.step Page.app Page.quad].
  - destruct (wrappedOnResults results a) as [a1|] eqn:Hw; [|discriminate].
    intros [= <-]. cbn.
    destruct (wrappedOnResults_fields _ _ _ Hw) as (_ & _ & _ & [[F _]|[F _]]).
    + congruence.
    + specialize (I3 F). destruct I3; congruence.
  - intros [= <-]. cbn. unfold flushEffects, captureBackgroundEffect.
    destruct (AppState_eqb (appState a) (stateRef a)); [assumption|].
    cbn [appState set_stateRef]. rewrite Ha. assumption.
  - destruct (initializePending a); [|discriminate].
    specialize (I1 eq_refl). congruence.
  - destruct (initializePending a); [|discriminate].
    specialize (I1 eq_refl). congruence.
  - unfold retryRendered. rewrite Ha. discriminate.
  - unfold Page.onQuad. cbn. destruct q; [|discriminate]. intros [= <-]. auto.
  - destruct (backgroundDataUrl a) eqn:Eb; [|discriminate].
    unfold Page.onQuad. cbn. destruct q; [|discriminate]. intros [= <-].
    cbn. auto.
  - unfold Page.onQuad. cbn. destruct q; [|discriminate]. intros [= <-]. auto.
  - unfold Page.onQuad. cbn. destruct q; [|discriminate]. intros [= <-]. auto.
Qed.

(** C8. In every reachable page the background plate is defined
    exactly when the state is Active: the step that stores it is the step
    from CapturingBackground to Active, and no later step changes it or
    leaves Active.  From the Error state the retry button (with the video
    element at hand) leads to Initializing with plate, debounce counter and
    reveal factor at their initial values: no plate, 0 and 0. *)
Theorem plate_iff_active_and_retry_resets (p : Page.t) :
  Page.reachable p ->
  (backgroundDataUrl (Page.app p) <> None <-> appState (Page.app p) = ACTIVE)
  /\ (forall e p', Page.step e p = Some p' ->
      (backgroundDataUrl (Page.app p') <> backgroundDataUrl (Page.app p) ->
       appState (Page.app p) = CAPTURING_BACKGROUND /\
       appState (Page.app p') = ACTIVE) /\
      (appState (Page.app p) = ACTIVE ->
       appState (Page.app p') = ACTIVE /\
       backgroundDataUrl (Page.app p') = backgroundDataUrl (Page.app p)))
  /\ (appState (Page.app p) = ERROR ->
      forall env, videoRef env <> None ->
      exists p', Page.step (Page.RetryClick env) p = Some p' /\
        appState (Page.app p') = INITIALIZING /\
        backgroundDataUrl (Page.app p') = None /\
        noPersonTimerRef (Page.app p') = O /\
        Page.quad p' = None /\
        Page.revealFactor p' = 0 /\
        backgroundDataUrl (Page.app p')
          = backgroundDataUrl (Page.app (Page.initial env)) /\
        noPersonTimerRef (Page.app p')
          = noPersonTimerRef (Page.app (Page.initial env)) /\
        Page.revealFactor p' = Page.revealFactor (Page.initial env)).
Proof.
  intros Hr. pose proof (invariant_reachable p Hr) as Hinv.
  pose proof Hinv as (I1 & I2 & I3 & I4 & I5 & I6 & I7).
  split; [exact I6|]. split.
  - intros e p' He. split.
    + intros Hne. destruct (step_plate e p p' He) as [H|H]; [congruence|exact H].
    + intros Ha. split; [eapply step_active; eassumption|].
      destruct (step_plate e p p' He) as [H|[H _]]; [exact H|congruence].
  - intros He env Hv. destruct p as [a q]. cbn [Page.app Page.quad] in *.
    cbn [Page.step Page.app]. unfold retryRendered. rewrite He. cbn.
    eexists; split; [reflexivity|].
    destruct (I2 (or_intror He)) as [_ Hc].
    assert (Hb : backgroundDataUrl a = None).
    { destruct (backgroundDataUrl a) eqn:Eb; [|reflexivity].
      assert (appState a = ACTIVE) by (apply I6; discriminate). congruence. }
    unfold Page.initial, Page.revealFactor, Page.reconcile, experienceRendered,
      retry, initializeEffect.
    destruct (videoRef env); [|congruence]. cbn. auto 10.
Qed.

Lemma plate_iff_active_and_retry_resets_witness :
  let env := mkEnv (Some (mkVideo None true false 0 0 0)) true in
  exists p, Page.run [Page.InitializeRejected] (Page.initial env) = Some p /\
    appState (Page.app p) = ERROR /\
    exists p', Page.step (Page.RetryClick env) p = Some p' /\
      appState (Page.app p') = INITIALIZING /\
      backgroundDataUrl (Page.app p') = None /\
      noPersonTimerRef (Page.app p') = O /\
      Page.quad p' = None /\
      Page.revealFactor p' = 0 /\
      backgroundDataUrl (Page.app p')
        = backgroundDataUrl (Page.app (Page.initial env)) /\
      noPersonTimerRef (Page.app p')
        = noPersonTimerRef (Page.app (Page.initial env)) /\
      Page.revealFactor p' = Page.revealFactor (Page.initial env).
Proof.
  intros env.
  eexists; split; [reflexivity|]. split; [reflexivity|].
  refine (proj2 (proj2 (plate_iff_active_and_retry_resets _ _)) _ env _).
  - exists env, [Page.InitializeRejected]. reflexivity.
  - reflexivity.
  - discriminate.
Defined.

(** The retry itself writes neither the plate nor the counter: the
    values above are those the page already has in the Error state. *)
Lemma retry_keeps_plate_and_counter env a :
  backgroundDataUrl (retry env a) = backgroundDataUrl a /\
  noPersonTimerRef (retry env a) = noPersonTimerRef a.
Proof. unfold retry, initializeEffect. destruct (videoRef env); auto. Qed.

End AppProperties.

(** * Further properties of the code *)

(** ** Gesture evaluator: what the answer depends on *)

Section GestureInvariance.
Import Js.


(** The answer as a function of the three entries the code reads. *)
Lemma checkFingerOnHead_by_entries landmarks :
  checkFingerOnHead landmarks =
  match landmarkAt landmarks POSE_LANDMARKS.NOSE,
        landmarkAt landmarks POSE_LANDMARKS.LEFT_INDEX,
        landmarkAt landmarks POSE_LANDMARKS.RIGHT_INDEX with
  | Some nose, Some leftIndex, Some rightIndex =>
      Normal
        ((Rltb (getDistance leftIndex nose) HEAD_PROXIMITY_THRESHOLD
          && Rltb (Landmark.y leftIndex) (Landmark.y nose))
         || (Rltb (getDistance rightIndex nose) HEAD_PROXIMITY_THRESHOLD
             && Rltb (Landmark.y rightIndex) (Landmark.y nose)))
  | _, _, _ => Normal false
  end.
Proof.
  destruct landmarks as [[|e0 l]|]; try reflexivity.
  apply checkFingerOnHead_entries. discriminate.
Qed.

(** X1. The evaluator reads three entries only: two landmark arrays
    (present or not, of any length) that agree on the nose, the left index
    and the right index get the same answer. *)
Theorem checkFingerOnHead_reads_three_entries (l1 l2 : Landmarks) :
  landmarkAt l1 POSE_LANDMARKS.NOSE = landmarkAt l2 POSE_LANDMARKS.NOSE ->
  landmarkAt l1 POSE_LANDMARKS.LEFT_INDEX = landmarkAt l2 POSE_LANDMARKS.LEFT_INDEX ->
  landmarkAt l1 POSE_LANDMARKS.RIGHT_INDEX = landmarkAt l2 POSE_LANDMARKS.RIGHT_INDEX ->
  checkFingerOnHead l1 = checkFingerOnHead l2.
Proof.
  intros Hn Hl Hr. rewrite !checkFingerOnHead_by_entries, Hn, Hl, Hr.
  reflexivity.
Qed.

Lemma checkFingerOnHead_reads_three_entries_witness :
  checkFingerOnHead
    (Some (Some (Landmark.mk 0.5 0.5) :: repeat None 18
           ++ [Some (Landmark.mk 0.5 0.4); Some (Landmark.mk 0.9 0.9)]))
  = checkFingerOnHead
      (Some (Some (Landmark.mk 0.5 0.5) :: repeat (Some (Landmark.mk 0 0)) 18
             ++ [Some (Landmark.mk 0.5 0.4); Some (Landmark.mk 0.9 0.9);
                 Some (Landmark.mk 1 1)])).
Proof.
  apply checkFingerOnHead_reads_three_entries; reflexivity.
Defined.

(** X2. The two hands are interchangeable: exchanging the left index
    and the right index entries does not change the answer. *)
Theorem checkFingerOnHead_hands_exchange (l1 l2 : Landmarks) :
  landmarkAt l1 POSE_LANDMARKS.NOSE = landmarkAt l2 POSE_LANDMARKS.NOSE ->
  landmarkAt l1 POSE_LANDMARKS.LEFT_INDEX = landmarkAt l2 POSE_LANDMARKS.RIGHT_INDEX ->
  landmarkAt l1 POSE_LANDMARKS.RIGHT_INDEX = landmarkAt l2 POSE_LANDMARKS.LEFT_INDEX ->
  checkFingerOnHead l1 = checkFingerOnHead l2.
Proof.
  intros Hn Hl Hr. rewrite !checkFingerOnHead_by_entries, Hn, Hl, Hr.
  destruct (landmarkAt l2 POSE_LANDMARKS.NOSE);
    destruct (landmarkAt l2 POSE_LANDMARKS.LEFT_INDEX);
    destruct (landmarkAt l2 POSE_LANDMARKS.RIGHT_INDEX); try reflexivity.
  f_equal. apply orb_comm.
Qed.

Lemma checkFingerOnHead_hands_exchange_witness :
  checkFingerOnHead
    (Some (Some (Landmark.mk 0.5 0.5) :: repeat None 18
           ++ [Some (Landmark.mk 0.5 0.4); Some (Landmark.mk 0.9 0.9)]))
  = checkFingerOnHead
      (Some (Some (Landmark.mk 0.5 0.5) :: repeat None 18
             ++ [Some (Landmark.mk 0.9 0.9); Some (Landmark.mk 0.5 0.4)])).
Proof.
  apply checkFingerOnHead_hands_exchange; reflexivity.
Defined.





(** X5. A frame in which [hasPeople] finds nobody never shows the
    gesture; and whenever the gesture is found, the finger tip is within
    0.2 of the nose in each coordinate and strictly above it. *)
Theorem gesture_needs_a_person (landmarks : Landmarks) :
  (hasPeople landmarks = Normal false ->
   checkFingerOnHead landmarks = Normal false)
  /\ (checkFingerOnHead landmarks = Normal true ->
      hasPeople landmarks = Normal true /\
      exists nose hand,
        landmarkAt landmarks POSE_LANDMARKS.NOSE = Some nose /\
        (landmarkAt landmarks POSE_LANDMARKS.LEFT_INDEX = Some hand \/
         landmarkAt landmarks POSE_LANDMARKS.RIGHT_INDEX = Some hand) /\
        Rabs (Landmark.x hand - Landmark.x nose) < 0.2 /\
        Landmark.y nose - 0.2 < Landmark.y hand < Landmark.y nose).
Proof.
  split.
  - rewrite hasPeople_value. destruct landmarks as [[|e0 l]|];
      try reflexivity. discriminate.
  - rewrite checkFingerOnHead_by_entries, hasPeople_value.
    destruct landmarks as [[|e0 l]|]; try discriminate.
    destruct (landmarkAt (Some (e0 :: l)) POSE_LANDMARKS.NOSE) as [nose|];
      try discriminate.
    destruct (landmarkAt (Some (e0 :: l)) POSE_LANDMARKS.LEFT_INDEX) as [li|] eqn:El;
      try discriminate.
    destruct (landmarkAt (Some (e0 :: l)) POSE_LANDMARKS.RIGHT_INDEX) as [ri|] eqn:Er;
      try discriminate.
    intros [= H]. split; [reflexivity|].
    assert (Hbound : forall hand, onHead hand nose ->
              Rabs (Landmark.x hand - Landmark.x nose) < 0.2 /\
              Landmark.y nose - 0.2 < Landmark.y hand < Landmark.y nose).
    { intros hand [Hd Hy]. unfold getDistance in Hd.
      set (a := Landmark.x hand - Landmark.x nose) in *.
      set (b := Landmark.y hand - Landmark.y nose) in *.
      assert (Hs : a ^ 2 + b ^ 2 < 0.2 * 0.2).
      { destruct (Rlt_or_le (a ^ 2 + b ^ 2) (0.2 * 0.2)) as [|Hge]; [assumption|].
        apply sqrt_le_1 in Hge; [|lra|nra].
        rewrite sqrt_square in Hge by lra. lra. }
      split.
      - apply Rabs_def1; nra.
      - subst b. split; [nra|lra]. }
    apply orb_true_iff in H. destruct H as [H|H]; apply onHead_Rltb in H.
    + exists nose, li. repeat split; auto; apply Hbound; assumption.
    + exists nose, ri. repeat split; auto; apply Hbound; assumption.
Qed.

End GestureInvariance.

(** ** Fragment shader: ranges and special cases *)

Section ShaderFurther.
Import Glsl LiquidShader.



Lemma smoothstep_low e0 e1 x : e0 < e1 -> x <= e0 -> smoothstep e0 e1 x = 0.
Proof.
  intros He Hx. unfold smoothstep, clamp.
  assert (H : (x - e0) / (e1 - e0) <= 0).
  { unfold Rdiv. assert (0 < / (e1 - e0)) by (apply Rinv_0_lt_compat; lra). nra. }
  rewrite Rmax_right by assumption. rewrite Rmin_left by lra. ring.
Qed.



(** X7. Where the mask is flat around the fragment (its eight
    neighbour samples are equal), no liquid edge is drawn: the fragment is
    the clean background blended with the video by reveal factor times
    mask value. *)
Theorem main_on_flat_mask (u : Inputs) (c : R) :
  n u = c -> s u = c -> e u = c -> w u = c ->
  nw u = c -> ne u = c -> sw u = c -> se u = c ->
  isEdge u = 0 /\
  main u = mix4 (cleanBg u) (personColor u) (uRevealFactor u * maskVal u).
Proof.
  intros Hn Hs He Hw Hnw Hne Hsw Hse.
  assert (Hx : gx u = 0) by (unfold gx; lra).
  assert (Hy : gy u = 0) by (unfold gy; lra).
  assert (Hedge : isEdge u = 0).
  { unfold isEdge, edgeMag, length2. cbn [x2 y2]. rewrite Hx, Hy.
    replace (0 * 0 + 0 * 0) with 0 by ring. rewrite sqrt_0.
    apply smoothstep_low; lra. }
  split; [assumption|].
  unfold main. rewrite Hedge, mix4_zero. reflexivity.
Qed.

Lemma main_on_flat_mask_witness :
  let bg : sampler2D := fun _ => mkvec4 0.25 0.25 0.25 1 in
  let video : sampler2D := fun _ => mkvec4 1 0 0 1 in
  let mask : sampler2D := fun _ => mkvec4 1 1 1 1 in
  let u := mkInputs 0 bg video mask 0.5 (mkvec2 640 480) (mkvec2 0.5 0.5) in
  isEdge u = 0 /\
  main u = mix4 (cleanBg u) (personColor u) (uRevealFactor u * maskVal u).
Proof.
  intros bg video mask u.
  apply (main_on_flat_mask u 1); reflexivity.
Defined.

(** X8. With a reveal factor of 0 the video has no part in the
    picture, inside the mask as outside: the fragment is the edge-blended
    colour, the same for every video texture. *)
Theorem main_without_reveal
  (time : R) (bg video video' mask : sampler2D) (res uv : vec2) :
  main (mkInputs time bg video mask 0 res uv)
  = edgeBlended (mkInputs time bg video' mask 0 res uv).
Proof.
  unfold main. cbn [uRevealFactor]. rewrite Rmult_0_l, mix4_zero. reflexivity.
Qed.

(** X9. Opaque textures give an opaque picture: when the background
    and the video have alpha 1 everywhere, so has the fragment (the tint
    of the liquid colour has alpha 0). *)
Theorem main_opaque (u : Inputs) :
  (forall uv, a4 (uBackgroundTexture u uv) = 1) ->
  (forall uv, a4 (uVideoTexture u uv) = 1) ->
  a4 (main u) = 1.
Proof.
  intros Hb Hv. unfold main, mix4, zip4, mix, liquidColor, add4, scale4, map4,
    zip4, distortedBg, cleanBg, personColor, liquidColorTint, texture2D.
  cbn [a4]. rewrite !Hb, Hv. ring.
Qed.

Lemma main_opaque_witness :
  let bg : sampler2D := fun _ => mkvec4 0.25 0.25 0.25 1 in
  let video : sampler2D := fun _ => mkvec4 1 0 0 1 in
  let mask : sampler2D := fun uv => mkvec4 (x2 uv) 0 0 1 in
  a4 (main (mkInputs 0 bg video mask 0.5 (mkvec2 640 480) (mkvec2 0.5 0.5))) = 1.
Proof.
  intros bg video mask.
  apply main_opaque; reflexivity.
Defined.

End ShaderFurther.

(** ** Frame callback: reveal factor and textures over time *)

Section QuadFurther.
Import FullScreenQuad.

(** The reveal factor after one call of the callback, guard included. *)
Lemma useFrame_revealProgress props f q :
  revealProgress (useFrame props f q) =
  match materialRef q, videoElement props, bgTexture q with
  | Some _, Some _, Some _ =>
      lerp (revealProgress q) (if isTouchingHead props then 1 else 0) (delta f * 3)
  | _, _, _ => revealProgress q
  end.
Proof.
  unfold useFrame.
  destruct (materialRef q); [|reflexivity].
  destruct (videoElement props); [|reflexivity].
  destruct (bgTexture q); [|reflexivity].
  destruct (videoTextureRef q); destruct (latestResults props) as [r|];
    try destruct (segmentationMask r); cbn;
    unfold ingestMask; try destruct (context2d f);
    try destruct (maskTextureRef q); reflexivity.
Qed.

Lemma lerp_unit r target t :
  0 <= r <= 1 -> 0 <= target <= 1 -> 0 <= t <= 1 -> 0 <= lerp r target t <= 1.
Proof. unfold lerp. intros. split; nra. Qed.

Lemma handle_reveal_unit e q :
  (forall props f, e = Tick props f -> 0 <= delta f <= 1 / 3) ->
  0 <= revealProgress q <= 1 -> 0 <= revealProgress (handle e q) <= 1.
Proof.
  intros Hd Hr. destruct e as [ | url | props | props f]; cbn [handle].
  - destruct (materialRef q); assumption.
  - assumption.
  - destruct (videoElement props); [destruct (videoTextureRef q)|]; assumption.
  - rewrite useFrame_revealProgress. specialize (Hd props f eq_refl).
    destruct (materialRef q); [|assumption].
    destruct (videoElement props); [|assumption].
    destruct (bgTexture q); [|assumption].
    apply lerp_unit; [assumption| destruct (isTouchingHead props); lra | lra].
Qed.

(** X12. Whatever happens to a quad since its mount (ticks with or
    without gesture, with changing props, texture events), its reveal
    factor stays within [0, 1] as long as no tick is longer than a third
    of a second. *)
Theorem reveal_stays_in_unit_interval (es : list event) :
  (forall props f, In (Tick props f) es -> 0 <= delta f <= 1 / 3) ->
  0 <= revealProgress (run es mount) <= 1.
Proof.
  assert (H : forall es q,
             (forall props f, In (Tick props f) es -> 0 <= delta f <= 1 / 3) ->
             0 <= revealProgress q <= 1 ->
             0 <= revealProgress (run es q) <= 1).
  { clear es. induction es as [|e es IH]; intros q Hd Hr; [assumption|].
    cbn [run fold_left]. apply IH.
    - intros props f Hin. apply (Hd props f). right. assumption.
    - apply handle_reveal_unit; [|assumption].
      intros props f ->. apply (Hd props f). left. reflexivity. }
  intros Hd. apply H; [assumption|]. cbn. lra.
Qed.

Lemma reveal_stays_in_unit_interval_witness :
  let video := mkVideo (Some O) false false 640 480 0 in
  let on := mkProps ACTIVE (Some video) (Some EmptyDataUrl) None true in
  let off := mkProps ACTIVE (Some video) (Some EmptyDataUrl) None false in
  let f := mkFrame 0 (1 / 4) (640, 480) true in
  0 <= revealProgress
         (run [MeshMounted; BackgroundLoaded EmptyDataUrl; Tick on f; Tick off f]
            mount) <= 1.
Proof.
  intros video on off f.
  apply reveal_stays_in_unit_interval.
  intros props f' [H|[H|[H|[H|[]]]]]; try discriminate;
    injection H as _ <-; cbn; lra.
Defined.

Lemma needsUpdate_length i : forall store,
  List.length (needsUpdate i store) = List.length store.
Proof.
  induction i as [|i IH]; intros [|t0 rest]; cbn; auto.
Qed.

(** One call: the mask ref, once set, stays; and the store grows by
    one exactly when the mask texture is created. *)
Lemma useFrame_allocation props f q :
  let q' := useFrame props f q in
  (forall i, maskTextureRef q = Some i -> maskTextureRef q' = Some i) /\
  List.length (textures q') =
  (List.length (textures q)
   + match maskTextureRef q, maskTextureRef q' with
     | None, Some _ => 1
     | _, _ => 0
     end)%nat.
Proof.
  unfold useFrame.
  destruct (materialRef q); [|destruct (maskTextureRef q); cbn; split; auto].
  destruct (videoElement props);
    [|destruct (maskTextureRef q); cbn; split; auto].
  destruct (bgTexture q); [|destruct (maskTextureRef q); cbn; split; auto].
  destruct (videoTextureRef q); destruct (latestResults props) as [r|];
    try destruct (segmentationMask r); cbn;
    unfold ingestMask; try destruct (context2d f);
    destruct (maskTextureRef q); cbn;
    rewrite ?length_app, ?needsUpdate_length; cbn; split; auto; try lia;
    discriminate.
Qed.

(** X13. The callback does not allocate per frame: over any number of
    ticks the texture store grows by one if the mask texture is created
    during them and not at all otherwise, and a mask texture once created
    is the one used ever after. *)
Theorem ticks_allocate_one_texture (ticks : list (SceneProps * Frame)) (q : t) :
  let q' := run (map (fun pf => Tick (fst pf) (snd pf)) ticks) q in
  (forall i, maskTextureRef q = Some i -> maskTextureRef q' = Some i) /\
  List.length (textures q') =
  (List.length (textures q)
   + match maskTextureRef q, maskTextureRef q' with
     | None, Some _ => 1
     | _, _ => 0
     end)%nat.
Proof.
  revert q. induction ticks as [|[props f] ticks IH]; intros q.
  - cbn. destruct (maskTextureRef q); split; auto.
  - cbn [map fst snd].
    change (run (Tick props f :: map (fun pf => Tick (fst pf) (snd pf)) ticks) q)
      with (run (map (fun pf => Tick (fst pf) (snd pf)) ticks) (useFrame props f q)).
    pose proof (useFrame_allocation props f q) as [K1 L1].
    pose proof (IH (useFrame props f q)) as [K2 L2].
    cbn zeta in *.
    set (q1 := useFrame props f q) in *.
    set (q2 := run (map (fun pf => Tick (fst pf) (snd pf)) ticks) q1) in *.
    destruct (maskTextureRef q) as [i|] eqn:E0.
    + specialize (K1 i eq_refl). pose proof (K2 i K1) as K3.
      rewrite K1 in L2. rewrite K3.
      split; [intros ? [= <-]; reflexivity | lia].
    + split; [discriminate|].
      destruct (maskTextureRef q1) as [j|] eqn:E1.
      * rewrite (K2 j eq_refl). lia.
      * rewrite L2, L1. destruct (maskTextureRef q2); lia.
Qed.

End QuadFurther.

(** ** Camera service: the frame loop and its end *)

Section ServiceFurther.
Import Js MediaPipeService.

Ltac service_split s :=
  destruct s as [[p|] [[[so|] pa en vw vh cf]|] [[|rid]|] st ip lp ss sc na fs].

(** A stopped service sends nothing, whatever it is in the middle of. *)
Lemma stopped_step e s s' :
  isStopped s = true -> handle e s = Some (Normal s') ->
  isStopped s' = true /\ framesSent s' = framesSent s.
Proof.
  intros Hs. destruct e as [ | n | | | | id]; cbn [handle].
  - intros [= H]. destruct (stop_effect _ _ H) as (? & _ & _ & ? & _). auto.
  - destruct (initPhase s); try discriminate.
    unfold onStream. cbn. rewrite Hs. intros [= <-]. cbn. auto.
  - destruct (initPhase s); try discriminate. intros [= <-]. cbn. auto.
  - destruct (initPhase s); try discriminate. unfold onLoadedMetadata.
    destruct (videoElement s); cbn; rewrite Hs; cbn; intros [= <-]; cbn; auto.
  - destruct (loopPhase s); try discriminate. intros [= <-]. cbn. auto.
  - destruct (existsb (Nat.eqb id) (scheduled s)); try discriminate.
    unfold processVideo. cbn. rewrite Hs. cbn. intros [= <-]. cbn. auto.
Qed.

(** X15. [stop()] ends the frame loop in whatever state it finds the
    service: after it no event sends a frame to the pose engine, not even
    the continuation of a send that was in flight. *)
Theorem stop_halts_frame_loop (s s1 s' : t) (es : list event) :
  stop s = Normal s1 -> run es s1 = Some s' ->
  isStopped s' = true /\ framesSent s' = framesSent s.
Proof.
  intros Hstop.
  destruct (stop_effect _ _ Hstop) as (Hst & _ & _ & Hfs & _).
  rewrite <- Hfs. clear Hstop Hfs. revert s1 Hst.
  induction es as [|e es IH]; intros s1 Hst; cbn [run].
  - intros [= <-]. auto.
  - destruct (handle e s1) as [[s2|]|] eqn:He; try discriminate.
    destruct (stopped_step _ _ _ Hst He) as [Hst2 Hfs2].
    intros Hrun. rewrite <- Hfs2. apply IH; assumption.
Qed.

Lemma stop_halts_frame_loop_witness :
  let video := mkVideo None true false 0 0 0 in
  exists s s1 s',
    run [StreamGranted 1; LoadedMetadata] (initialize video new) = Some s /\
    loopPhase s = AwaitingSend /\
    stop s = Normal s1 /\
    run [SendDone; AnimationFrame 1] s1 = Some s' /\
    isStopped s' = true /\ framesSent s' = framesSent s.
Proof.
  intros video. do 3 eexists.
  split; [lazy; reflexivity|]. split; [reflexivity|].
  split; [lazy; reflexivity|]. split; [lazy; reflexivity|].
  eapply (stop_halts_frame_loop _ _ _ [SendDone; AnimationFrame 1]);
    lazy; reflexivity.
Defined.

Lemma stopStreamAt_same i : forall l st,
  nth_error l i = Some st -> nth_error (stopStreamAt i l) i = Some (stopTracks st).
Proof.
  induction i as [|i IH]; intros [|a l] st; cbn; try discriminate; auto.
  intros [= <-]. reflexivity.
Qed.

Lemma stopStreamAt_other i : forall l j,
  j <> i -> nth_error (stopStreamAt i l) j = nth_error l j.
Proof.
  induction i as [|i IH]; intros [|a l] [|j] H; cbn; auto; congruence.
Qed.

Lemma stopTracks_all_ended st : Forall (fun live => live = false) (stopTracks st).
Proof. induction st; cbn; constructor; auto. Qed.

(** X16. [stop()] releases the camera: every track of the stream the
    video element shows is stopped, the element is detached from it, the
    other streams are left alone, and the pose engine is closed. *)
Theorem stop_releases_camera
  (s s' : t) (v : HTMLVideoElement) (i : nat) (stream : MediaStream) :
  videoElement s = Some v -> srcObject v = Some i ->
  nth_error (streams s) i = Some stream ->
  stop s = Normal s' ->
  (exists stream', nth_error (streams s') i = Some stream' /\
                   Forall (fun live => live = false) stream' /\
                   List.length stream' = List.length stream) /\
  (forall j, j <> i -> nth_error (streams s') j = nth_error (streams s) j) /\
  (exists v', videoElement s' = Some v' /\ srcObject v' = None) /\
  (pose s <> None -> pose s' = Some (mkPose true)).
Proof.
  intros Hv Hso Hst.
  destruct s as [p ve rid stp ip lp ss sc na fs]. cbn in Hv, Hst. subst ve.
  destruct v as [so pa en vw vh cf]. cbn in Hso. subst so.
  destruct rid as [[|r]|]; destruct p; cbn; intros [= <-]; cbn;
    (split; [exists (stopTracks stream); split;
               [apply stopStreamAt_same; assumption
               |split; [apply stopTracks_all_ended
                       |unfold stopTracks; apply length_map]]|]);
    (split; [intros j Hj; apply stopStreamAt_other; assumption|]);
    (split; [eexists; split; reflexivity|]); congruence.
Qed.

Lemma stop_releases_camera_witness :
  let video := mkVideo None true false 0 0 0 in
  exists s s',
    run [StreamGranted 2; LoadedMetadata; SendDone] (initialize video new) = Some s /\
    nth_error (streams s) 0 = Some [true; true] /\
    stop s = Normal s' /\
    (exists stream', nth_error (streams s') 0 = Some stream' /\
                     Forall (fun live => live = false) stream' /\
                     List.length stream' = List.length [true; true]) /\
    (forall j, j <> O -> nth_error (streams s') j = nth_error (streams s) j) /\
    (exists v', videoElement s' = Some v' /\ srcObject v' = None) /\
    (pose s <> None -> pose s' = Some (mkPose true)).
Proof.
  intros video. do 2 eexists.
  split; [lazy; reflexivity|]. split; [reflexivity|].
  split; [lazy; reflexivity|].
  eapply stop_releases_camera; lazy; reflexivity.
Defined.

(** X17. [initialize] clears an earlier [stop()]: from any service
    state, stopped or not, a granted stream followed by its metadata
    attaches the stream with its tracks live, plays the video and sends
    the first frame, as long as the video has not ended. *)
Theorem initialize_starts_loop (video : HTMLVideoElement) (s0 : t) (n : nat) :
  ended video = false ->
  exists s v,
    run [StreamGranted n; LoadedMetadata] (initialize video s0) = Some s /\
    isStopped s = false /\ initPhase s = Resolved /\
    loopPhase s = AwaitingSend /\ framesSent s = S (framesSent s0) /\
    videoElement s = Some v /\
    srcObject v = Some (List.length (streams s0)) /\ paused v = false /\
    nth_error (streams s) (List.length (streams s0)) = Some (repeat true n).
Proof.
  intros He. destruct video as [so pa en vw vh cf]. cbn in He. subst en.
  destruct s0 as [p ve rid stp ip lp ss sc na fs].
  exists (mk (Some (mkPose false))
            (Some (mkVideo (Some (List.length ss)) false false vw vh cf))
            rid false Resolved AwaitingSend (ss ++ [repeat true n]) sc na (S fs)),
         (mkVideo (Some (List.length ss)) false false vw vh cf).
  split; [reflexivity|]. cbn.
  repeat split. rewrite nth_error_app2, Nat.sub_diag by lia. reflexivity.
Qed.

Lemma initialize_starts_loop_witness :
  let video := mkVideo None true false 0 0 0 in
  exists s0, stop new = Normal s0 /\ isStopped s0 = true /\
  exists s v,
    run [StreamGranted 1; LoadedMetadata] (initialize video s0) = Some s /\
    isStopped s = false /\ initPhase s = Resolved /\
    loopPhase s = AwaitingSend /\ framesSent s = S (framesSent s0) /\
    videoElement s = Some v /\
    srcObject v = Some (List.length (streams s0)) /\ paused v = false /\
    nth_error (streams s) (List.length (streams s0)) = Some (repeat true 1).
Proof.
  intros video. eexists. split; [reflexivity|]. split; [reflexivity|].
  apply (initialize_starts_loop video). reflexivity.
Defined.

Lemma single_loop_initialize video s0 :
  loopPhase s0 = LoopIdle -> scheduled s0 = [] ->
  (1 <= nextAnimationId s0)%nat -> single_loop (initialize video s0).
Proof.
  intros Hl Hq Hn. unfold single_loop, initialize. cbn.
  rewrite Hq, Hl. repeat split; auto; discriminate.
Qed.

Ltac open_service s H :=
  destruct s as [p ve rid stp ip lp ss sc na fs];
  unfold single_loop in H; cbn in H;
  destruct H as (Hn & Hv & Hl & Hi);
  destruct ve as [[so pa en vw vh cf]|]; [|congruence].

Ltac close_loop :=
  unfold single_loop; cbn; rewrite ?Nat.eqb_refl; cbn;
  repeat split; auto; try discriminate; try lia;
  try (right; eexists; split; reflexivity).

Lemma single_loop_step e s s' :
  single_loop s -> handle e s = Some (Normal s') -> single_loop s'.
Proof.
  intros Hinv He. open_service s Hinv.
  destruct na as [|na]; [lia|].
  destruct e as [ | n | | | | id]; cbn [handle] in He.
  - (* Stop *)
    injection He as He. 
    destruct lp; [destruct Hl as [-> | (k & -> & ->)] | subst sc];
      try (destruct rid as [[|r]|]);
      destruct so, p; cbn in He; injection He as <-; destruct ip; 
      try (destruct Hi; congruence); close_loop.
  - destruct ip; try discriminate. destruct Hi as [-> ->].
    destruct stp; cbn in He; injection He as <-; close_loop.
  - destruct ip; try discriminate. destruct Hi as [-> ->].
    cbn in He; injection He as <-; close_loop.
  - destruct ip; try discriminate. destruct Hi as [-> ->].
    destruct stp, p, en; cbn in He; injection He as <-; close_loop.
  - destruct lp; try discriminate. subst sc.
    destruct ip; try (destruct Hi; congruence).
    all: cbn in He; injection He as <-; close_loop.
  - destruct lp; [|subst sc; discriminate].
    destruct Hl as [-> | (k & -> & ->)]; [discriminate|].
    cbn in He. destruct (Nat.eqb_spec id (S k)); [subst id|discriminate].
    cbn in He. rewrite ?Nat.eqb_refl in He. cbn in He.
    destruct ip; try (destruct Hi; congruence).
    all: destruct stp, p, pa, en; cbn in He; injection He as <-; close_loop.
Qed.

Lemma single_loop_run es : forall s s',
  single_loop s -> run es s = Some s' -> single_loop s'.
Proof.
  induction es as [|e es IH]; intros s s' Hs; cbn [run].
  - intros [= <-]. assumption.
  - destruct (handle e s) as [[s1|]|] eqn:He; try discriminate.
    apply IH. eapply single_loop_step; eassumption.
Qed.

(** X18. One [initialize] runs one frame loop: at every moment,
    before and after any [stop()], at most one frame is either being sent
    or waiting for its animation frame.  [stop()] cancels the waiting one:
    the state it returns has no callback scheduled, and when no send was in
    flight none is scheduled ever after.  When a send was in flight, its
    continuation in [processVideo] still schedules one callback once the
    send completes. *)
Theorem frame_loop_runs_once
  (video : HTMLVideoElement) (s0 s : t) (es : list event) :
  loopPhase s0 = LoopIdle -> scheduled s0 = [] ->
  (1 <= nextAnimationId s0)%nat ->
  run es (initialize video s0) = Some s ->
  (pending_frames s <= 1)%nat /\
  exists s1, stop s = Normal s1 /\ scheduled s1 = [] /\
    (loopPhase s = LoopIdle ->
     forall es' s2, run es' s1 = Some s2 -> scheduled s2 = []) /\
    (loopPhase s = AwaitingSend ->
     exists s2, run [SendDone] s1 = Some s2 /\
                scheduled s2 = [nextAnimationId s1]).
Proof.
  intros Idle Empty Ids Hrun.
  assert (Hinv : single_loop s).
  { eapply single_loop_run; [|eassumption].
    apply single_loop_initialize; assumption. }
  clear Hrun Idle Empty Ids.
  assert (H : (pending_frames s <= 1)%nat /\
              forall s', stop s = Normal s' -> scheduled s' = []).
  { open_service s Hinv. unfold pending_frames. cbn.
    destruct lp; [destruct Hl as [-> | (k & -> & ->)] | subst sc]; cbn;
      (split; [lia|]); intros s'; try (destruct rid as [[|r]|]);
      destruct so, p; cbn; intros [= <-]; cbn;
      rewrite ?Nat.eqb_refl; reflexivity. }
  destruct H as [Hp Hq]. split; [assumption|].
  destruct (stop_total s) as [s1 Hs1]. exists s1.
  pose proof (Hq s1 Hs1) as Hsched.
  destruct (stop_effect _ _ Hs1) as (Hst & _ & Hlp & _).
  split; [assumption|]. split; [assumption|]. split.
  - intros Hl es' s2 Hr.
    destruct (stopped_idle_run es' s1 s2) as (_ & _ & Hf & _); auto; congruence.
  - intros Hl. exists (processVideo_schedule s1). split.
    + cbn. rewrite Hlp, Hl. reflexivity.
    + unfold processVideo_schedule, requestAnimationFrame. cbn.
      rewrite Hsched. reflexivity.
Qed.

Lemma frame_loop_runs_once_witness :
  let video := mkVideo None true false 0 0 0 in
  exists s,
    run [StreamGranted 1; LoadedMetadata; SendDone; AnimationFrame 1]
      (initialize video new) = Some s /\
    (pending_frames s <= 1)%nat /\
    exists s1, stop s = Normal s1 /\ scheduled s1 = [] /\
      (loopPhase s = LoopIdle ->
       forall es' s2, run es' s1 = Some s2 -> scheduled s2 = []) /\
      (loopPhase s = AwaitingSend ->
       exists s2, run [SendDone] s1 = Some s2 /\
                  scheduled s2 = [nextAnimationId s1]).
Proof.
  intros video. eexists. split; [lazy; reflexivity|].
  apply (frame_loop_runs_once video new _
           [StreamGranted 1; LoadedMetadata; SendDone; AnimationFrame 1]);
    reflexivity.
Defined.

Lemma video_kept_step e s s' :
  videoElement s <> None -> handle e s = Some (Normal s') ->
  videoElement s' <> None.
Proof.
  intros Hv He. destruct s as [p [[so pa en vw vh cf]|] rid stp ip lp ss sc na fs];
    [|cbn in Hv; congruence].
  destruct e as [ | n | | | | id]; cbn [handle] in He.
  - destruct rid as [[|r]|], so, p; cbn in He; injection He as <-; cbn; discriminate.
  - destruct ip; try discriminate.
    destruct stp; cbn in He; injection He as <-; cbn; discriminate.
  - destruct ip; try discriminate. injection He as <-. cbn. discriminate.
  - destruct ip; try discriminate.
    destruct stp, p, en; cbn in He; injection He as <-; cbn; discriminate.
  - destruct lp; try discriminate. injection He as <-. cbn. discriminate.
  - cbn in He. destruct (existsb (Nat.eqb id) sc); try discriminate.
    destruct stp, p, pa, en; cbn in He; injection He as <-; cbn; discriminate.
Qed.

Lemma video_kept_run es : forall s s',
  videoElement s <> None -> run es s = Some s' -> videoElement s' <> None.
Proof.
  induction es as [|e es IH]; intros s s' Hs; cbn [run].
  - intros [= <-]. assumption.
  - destruct (handle e s) as [[s1|]|] eqn:He; try discriminate.
    apply IH. eapply video_kept_step; eassumption.
Qed.

(** X19. Once [initialize] has been called, no event makes the service
    throw: no handler reads a property of a missing video element or pose
    engine, in whatever order stream, metadata, frames and [stop()]
    arrive. *)
Theorem service_never_throws
  (video : HTMLVideoElement) (s0 s : t) (es : list event) (e : event) :
  run es (initialize video s0) = Some s ->
  handle e s <> Some TypeError.
Proof.
  intros Hrun.
  assert (Hv : videoElement s <> None).
  { eapply video_kept_run; [|eassumption]. cbn. discriminate. }
  clear Hrun.
  destruct s as [p [[so pa en vw vh cf]|] rid stp ip lp ss sc na fs];
    [|cbn in Hv; congruence].
  destruct e as [ | n | | | | id]; cbn [handle].
  - destruct rid as [[|r]|], so, p; cbn; discriminate.
  - destruct ip; try discriminate. destruct stp; cbn; discriminate.
  - destruct ip; discriminate.
  - destruct ip; try discriminate. destruct stp, p, en; cbn; discriminate.
  - destruct lp; discriminate.
  - cbn. destruct (existsb (Nat.eqb id) sc); try discriminate.
    destruct stp, p, pa, en; cbn; discriminate.
Qed.

Lemma service_never_throws_witness :
  let video := mkVideo None true false 0 0 0 in
  exists s,
    run [StreamGranted 1; Stop; LoadedMetadata] (initialize video new) = Some s /\
    handle Stop s <> Some TypeError.
Proof.
  intros video. eexists. split; [lazy; reflexivity|].
  apply (service_never_throws video new _ [StreamGranted 1; Stop; LoadedMetadata]).
  lazy. reflexivity.
Defined.

(** X20. While the video is paused or has ended, a running loop keeps
    polling: the frame callback sends nothing to the pose engine and
    requests exactly one further animation frame. *)
Theorem paused_video_is_polled (s : t) (v : HTMLVideoElement) (id : nat) :
  isStopped s = false -> pose s <> None -> videoElement s = Some v ->
  paused v = true \/ ended v = true ->
  In id (scheduled s) ->
  exists s', handle (AnimationFrame id) s = Some (Normal s') /\
    framesSent s' = framesSent s /\ loopPhase s' = LoopIdle /\
    requestAnimationId s' = Some (nextAnimationId s) /\
    scheduled s' =
      nextAnimationId s :: filter (fun j => negb (Nat.eqb j id)) (scheduled s).
Proof.
  intros Hs Hp Hv Hpe Hin. cbn [handle].
  assert (Hex : existsb (Nat.eqb id) (scheduled s) = true).
  { apply existsb_exists. exists id. split; [assumption|apply Nat.eqb_refl]. }
  rewrite Hex. unfold processVideo. cbn. rewrite Hs, Hv. cbn.
  destruct (pose s); [|congruence]. cbn.
  destruct Hpe as [Hpa | Hen].
  - rewrite Hpa. cbn. eexists. split; [reflexivity|]. cbn. auto.
  - destruct (paused v); cbn; [|rewrite Hen; cbn];
      (eexists; split; [reflexivity|]; cbn; auto).
Qed.

Lemma paused_video_is_polled_witness :
  let v := mkVideo (Some O) true false 640 480 0 in
  let s := mk (Some (mkPose false)) (Some v) (Some 1%nat) false Resolved
             LoopIdle [[true]] [1%nat] 2 0 in
  exists s', handle (AnimationFrame 1) s = Some (Normal s') /\
    framesSent s' = framesSent s /\ loopPhase s' = LoopIdle /\
    requestAnimationId s' = Some (nextAnimationId s) /\
    scheduled s' =
      nextAnimationId s :: filter (fun j => negb (Nat.eqb j 1)) (scheduled s).
Proof.
  intros v s.
  apply (paused_video_is_polled s v 1); try reflexivity.
  - discriminate.
  - left. reflexivity.
  - left. reflexivity.
Defined.

End ServiceFurther.

(** ** Capture state machine: counter, flag and progress *)

Section AppFurther.
Import Js App.

Lemma nobodyb_hasPeople r :
  hasPeople (poseLandmarks r) = Normal (negb (nobodyb r)).
Proof.
  unfold nobodyb. rewrite hasPeople_value.
  destruct (poseLandmarks r) as [[|e0 l]|]; reflexivity.
Qed.

(** One result while waiting, with or without a person. *)
Lemma wrappedOnResults_waiting r a :
  stateRef a = WAITING_FOR_CLEAR_VIEW ->
  exists a', wrappedOnResults r a = Normal a' /\
    stateRef a' = WAITING_FOR_CLEAR_VIEW /\
    noPersonTimerRef a' = (if nobodyb r then S (noPersonTimerRef a) else O) /\
    (nobodyb r = true -> (30 < S (noPersonTimerRef a))%nat ->
     appState a' = CAPTURING_BACKGROUND) /\
    (appState a = CAPTURING_BACKGROUND -> appState a' = CAPTURING_BACKGROUND).
Proof.
  intros Hs. destruct (nobodyb r) eqn:Hn.
  - assert (Hr : nobody r).
    { unfold nobody. rewrite nobodyb_hasPeople, Hn. reflexivity. }
    destruct (wrappedOnResults_clear r a Hs Hr) as (a' & H & Hs' & Hc & Ha).
    exists a'. repeat split; auto.
    + intros _ Hlt. rewrite Ha.
      destruct (Nat.ltb_spec 30 (S (noPersonTimerRef a))); [reflexivity|lia].
    + intros Hcap. rewrite Ha, Hcap.
      destruct (Nat.ltb 30 (S (noPersonTimerRef a))); reflexivity.
  - unfold wrappedOnResults. rewrite nobodyb_hasPeople, Hn. cbn.
    rewrite Hs. cbn. eexists. split; [reflexivity|]. cbn.
    repeat split; auto. discriminate.
Qed.

Lemma streak_snoc rs r c :
  streak (rs ++ [r]) c = if nobodyb r then S (streak rs c) else O.
Proof. unfold streak. rewrite fold_left_app. reflexivity. Qed.

Lemma deliver_snoc rs r : forall a,
  deliver (rs ++ [r]) a = bind (deliver rs a) (wrappedOnResults r).
Proof.
  induction rs as [|r0 rs IH]; intros a; cbn [app deliver].
  - unfold ret. cbn [bind]. destruct (wrappedOnResults r a); reflexivity.
  - destruct (wrappedOnResults r0 a) as [a1|]; cbn [bind]; [apply IH|reflexivity].
Qed.

(** X21. While the page waits for a clear view, the counter is the
    length of the current run of results without a person: each such
    result adds one, a result with a person sets it back to 0; and when
    that run is longer than 30 as the last result comes in,
    CapturingBackground has been requested. *)
Theorem counter_is_current_streak (rs : list MediaPipeResults) (a : App.t) :
  stateRef a = WAITING_FOR_CLEAR_VIEW ->
  exists a', deliver rs a = Normal a' /\
    noPersonTimerRef a' = streak rs (noPersonTimerRef a) /\
    (rs <> [] -> (30 < streak rs (noPersonTimerRef a))%nat ->
     appState a' = CAPTURING_BACKGROUND).
Proof.
  intros Hs.
  assert (H : exists a', deliver rs a = Normal a' /\
            stateRef a' = WAITING_FOR_CLEAR_VIEW /\
            noPersonTimerRef a' = streak rs (noPersonTimerRef a) /\
            (rs <> [] -> (30 < streak rs (noPersonTimerRef a))%nat ->
             appState a' = CAPTURING_BACKGROUND)).
  { induction rs as [|r rs IH] using rev_ind.
    - exists a. cbn. repeat split; auto. congruence.
    - destruct IH as (a1 & H1 & Hs1 & Hc1 & _).
      destruct (wrappedOnResults_waiting r a1 Hs1) as (a' & H' & Hs' & Hc' & Hcap & _).
      exists a'. rewrite deliver_snoc, H1. cbn [bind].
      rewrite streak_snoc. repeat split; auto.
      + rewrite Hc', Hc1. reflexivity.
      + intros _. destruct (nobodyb r); [|lia].
        intros Hlt. apply Hcap; [reflexivity|]. rewrite Hc1. assumption. }
  destruct H as (a' & H1 & _ & H2 & H3). eauto.
Qed.

Lemma counter_is_current_streak_witness :
  let a := App.mk WAITING_FOR_CLEAR_VIEW PleaseLeaveFrame None false 0 None
             WAITING_FOR_CLEAR_VIEW 5 false in
  let clear := mkResults 0 None None in
  let person := mkResults 0 None (Some [Some (Landmark.mk 0.5 0.5)]) in
  let rs := [clear; person; clear; clear] in
  streak rs 5 = 2%nat /\
  exists a', deliver rs a = Normal a' /\
    noPersonTimerRef a' = streak rs (noPersonTimerRef a) /\
    (rs <> [] -> (30 < streak rs (noPersonTimerRef a))%nat ->
     appState a' = CAPTURING_BACKGROUND).
Proof.
  intros a clear person rs. split; [reflexivity|].
  apply (counter_is_current_streak rs a). reflexivity.
Defined.

(** X22. Results are not queued: after any sequence of results, in
    whatever state, the results kept for the compositor are the last ones
    delivered; and the callback never throws. *)
Theorem latest_results_win (rs : list MediaPipeResults) (r : MediaPipeResults) (a : App.t) :
  exists a', deliver (rs ++ [r]) a = Normal a' /\ latestResultsRef a' = Some r.
Proof.
  assert (Hd : exists a1, deliver rs a = Normal a1).
  { revert a. induction rs as [|r0 rs IH]; intros a; cbn [deliver]; eauto.
    destruct (wrappedOnResults_total r0 a) as [a1 ->]. cbn [bind]. apply IH. }
  destruct Hd as [a1 H1]. rewrite deliver_snoc, H1. cbn [bind].
  destruct (wrappedOnResults_total r a1) as [a' H']. exists a'.
  split; [assumption|].
  revert H'. unfold wrappedOnResults. rewrite hasPeople_value. cbn [bind].
  change (stateRef (onResults r a1)) with (stateRef a1).
  destruct r as [im sm pl]. cbn [poseLandmarks].
  destruct (stateRef a1).
  all: repeat match goal with
       | |- context [if ?c then _ else _] => destruct c
       end; try (intros [= <-]; reflexivity).
  all: destruct (checkFingerOnHead_total pl) as [b ->]; intros [= <-]; reflexivity.
Qed.

(** How one step moves the state of the calibration. *)
Lemma step_progress e p p' :
  Page.invariant p -> Page.step e p = Some p' ->
  (progress (appState (Page.app p)) <= progress (appState (Page.app p')))%nat.
Proof.
  destruct p as [a q]. unfold Page.invariant. cbn [Page.app Page.quad].
  intros (I1 & I2 & I3 & I4 & I5 & I6 & I7).
  destruct e; cbn [Page.step Page.app Page.quad].
  - destruct (wrappedOnResults results a) as [a1|] eqn:Hw; [|discriminate].
    intros [= <-]. cbn.
    destruct (wrappedOnResults_fields _ _ _ Hw) as (_ & _ & _ & [[F _]|[F1 F2]]).
    + rewrite F. lia.
    + rewrite F2. destruct (I3 F1) as [-> | ->]; cbn; lia.
  - intros [= <-]. cbn. unfold flushEffects, captureBackgroundEffect.
    destruct (AppState_eqb (appState a) (stateRef a)); [lia|].
    cbn [appState set_stateRef].
    destruct (appState a) eqn:Ea; cbn; rewrite ?Ea; cbn; try lia.
    destruct (videoRef env); [destruct (context2d env)|]; cbn; rewrite ?Ea; cbn; lia.
  - destruct (initializePending a); [|discriminate]. intros [= <-].
    specialize (I1 eq_refl). cbn. rewrite I1. cbn. lia.
  - destruct (initializePending a); [|discriminate]. intros [= <-].
    specialize (I1 eq_refl). cbn. rewrite I1. cbn. lia.
  - unfold retryRendered. destruct (appState a) eqn:Ea; cbn; try discriminate.
    intros [= <-]. cbn. unfold retry, initializeEffect.
    destruct (videoRef env); cbn; rewrite ?Ea; cbn; lia.
  - unfold Page.onQuad. cbn. destruct q; [|discriminate]. intros [= <-]. cbn. lia.
  - destruct (backgroundDataUrl a) eqn:Eb; [|discriminate].
    unfold Page.onQuad. cbn. destruct q; [|discriminate]. intros [= <-]. cbn. lia.
  - unfold Page.onQuad. cbn. destruct q; [|discriminate]. intros [= <-]. cbn. lia.
  - unfold Page.onQuad. cbn. destruct q; [|discriminate]. intros [= <-]. cbn. lia.
Qed.

(** X23. The calibration never goes back: along every run of a
    reachable page the state moves forward in the order Initializing or
    Error, WaitingForClearView, CapturingBackground, Active.  In
    particular, once initialisation has succeeded the page never shows
    Initializing or Error again. *)
Theorem calibration_never_goes_back (p p' : Page.t) (es : list Page.event) :
  Page.reachable p -> Page.run es p = Some p' ->
  (progress (appState (Page.app p)) <= progress (appState (Page.app p')))%nat
  /\ (appState (Page.app p) <> INITIALIZING -> appState (Page.app p) <> ERROR ->
      appState (Page.app p') <> INITIALIZING /\ appState (Page.app p') <> ERROR).
Proof.
  intros Hr Hrun.
  assert (H : (progress (appState (Page.app p))
               <= progress (appState (Page.app p')))%nat).
  { apply invariant_reachable in Hr. revert p Hr Hrun.
    induction es as [|e es IH]; intros p Hinv; cbn [Page.run].
    - intros [= <-]. lia.
    - destruct (Page.step e p) as [p1|] eqn:He; [|discriminate]. intros Hrun.
      pose proof (step_progress e p p1 Hinv He).
      pose proof (IH p1 (invariant_step e p p1 Hinv He) Hrun). lia. }
  split; [assumption|]. intros H1 H2.
  destruct (appState (Page.app p)); try congruence;
    destruct (appState (Page.app p')); cbn in H; try lia; split; discriminate.
Qed.

Lemma calibration_never_goes_back_witness :
  let env := mkEnv (Some (mkVideo (Some O) false false 640 480 0)) true in
  let clear := mkResults 0 None None in
  exists p p',
    Page.run [Page.InitializeResolved; Page.Effects env] (Page.initial env) = Some p /\
    Page.run (repeat (Page.Results clear) 31) p = Some p' /\
    (progress (appState (Page.app p)) <= progress (appState (Page.app p')))%nat
    /\ (appState (Page.app p) <> INITIALIZING -> appState (Page.app p) <> ERROR ->
        appState (Page.app p') <> INITIALIZING /\ appState (Page.app p') <> ERROR).
Proof.
  intros env clear. do 2 eexists.
  split; [lazy; reflexivity|]. split; [lazy; reflexivity|].
  eapply (calibration_never_goes_back _ _ (repeat (Page.Results clear) 31)).
  - exists env, [Page.InitializeResolved; Page.Effects env]. lazy. reflexivity.
  - lazy. reflexivity.
Defined.

(** After a flush in CapturingBackground that could not capture, nothing
    moves any more. *)
Lemma stuck_step e p p' :
  Page.invariant p ->
  appState (Page.app p) = CAPTURING_BACKGROUND ->
  stateRef (Page.app p) = CAPTURING_BACKGROUND ->
  Page.step e p = Some p' ->
  appState (Page.app p') = CAPTURING_BACKGROUND /\
  stateRef (Page.app p') = CAPTURING_BACKGROUND.
Proof.
  destruct p as [a q]. unfold Page.invariant. cbn [Page.app Page.quad].
  intros (I1 & I2 & I3 & I4 & I5 & I6 & I7) Ha Hs.
  destruct e; cbn [Page.step Page.app Page.quad].
  - destruct (wrappedOnResults results a) as [a1|] eqn:Hw; [|discriminate].
    intros [= <-]. cbn.
    destruct (wrappedOnResults_fields _ _ _ Hw) as (F1 & _ & _ & [[F _]|[F _]]);
      split; congruence.
  - intros [= <-]. cbn. unfold flushEffects. rewrite Ha, Hs. cbn. auto.
  - destruct (initializePending a); [|discriminate].
    specialize (I1 eq_refl). congruence.
  - destruct (initializePending a); [|discriminate].
    specialize (I1 eq_refl). congruence.
  - unfold retryRendered. rewrite Ha. discriminate.
  - rewrite I7 by congruence. discriminate.
  - rewrite I7 by congruence. destruct (backgroundDataUrl a); discriminate.
  - rewrite I7 by congruence. discriminate.
  - rewrite I7 by congruence. discriminate.
Qed.

(** X24. A capture that fails is never tried again: if the capture
    effect runs in CapturingBackground without a video element or without
    a drawing context, then whatever happens afterwards the page stays in
    CapturingBackground, without plate. *)
Theorem failed_capture_is_never_retried
  (p p1 p' : Page.t) (env : Env) (es : list Page.event) :
  Page.reachable p ->
  appState (Page.app p) = CAPTURING_BACKGROUND ->
  videoRef env = None \/ context2d env = false ->
  Page.step (Page.Effects env) p = Some p1 ->
  Page.run es p1 = Some p' ->
  appState (Page.app p') = CAPTURING_BACKGROUND /\
  backgroundDataUrl (Page.app p') = None.
Proof.
  intros Hr Ha Henv He Hrun.
  pose proof (invariant_reachable p Hr) as Hinv.
  pose proof (invariant_step _ _ _ Hinv He) as Hinv1.
  assert (H1 : appState (Page.app p1) = CAPTURING_BACKGROUND /\
               stateRef (Page.app p1) = CAPTURING_BACKGROUND).
  { destruct p as [a q]. cbn in *. injection He as <-. cbn.
    unfold flushEffects, captureBackgroundEffect.
    destruct (AppState_eqb (appState a) (stateRef a)) eqn:E.
    - rewrite Ha in E. destruct (stateRef a); try discriminate. auto.
    - cbn [appState set_stateRef]. rewrite Ha.
      destruct Henv as [-> | Hc]; [cbn; auto|].
      destruct (videoRef env); rewrite ?Hc; cbn; auto. }
  clear He Hr Hinv Ha.
  assert (H : appState (Page.app p') = CAPTURING_BACKGROUND /\
              Page.invariant p').
  { revert p1 Hinv1 H1 Hrun. induction es as [|e es IH]; intros p1 Hinv1 [A S]; cbn [Page.run].
    - intros [= <-]. auto.
    - destruct (Page.step e p1) as [p2|] eqn:He; [|discriminate].
      apply IH.
      + eapply invariant_step; eassumption.
      + eapply stuck_step; eassumption. }
  destruct H as [A (_ & _ & _ & _ & _ & I6 & _)]. split; [assumption|].
  destruct (backgroundDataUrl (Page.app p')); [|reflexivity].
  assert (appState (Page.app p') = ACTIVE) by (apply I6; discriminate).
  congruence.
Qed.

Lemma failed_capture_is_never_retried_witness :
  let env := mkEnv (Some (mkVideo (Some O) false false 640 480 0)) true in
  let blind := mkEnv (Some (mkVideo (Some O) false false 640 480 0)) false in
  let clear := mkResults 0 None None in
  exists p p1 p',
    Page.run ([Page.InitializeResolved; Page.Effects env]
              ++ repeat (Page.Results clear) 31) (Page.initial env) = Some p /\
    Page.step (Page.Effects blind) p = Some p1 /\
    Page.run [Page.Results clear; Page.Effects env] p1 = Some p' /\
    appState (Page.app p') = CAPTURING_BACKGROUND /\
    backgroundDataUrl (Page.app p') = None.
Proof.
  intros env blind clear. do 3 eexists.
  split; [lazy; reflexivity|]. split; [lazy; reflexivity|].
  split; [lazy; reflexivity|].
  eapply (failed_capture_is_never_retried _ _ _ blind
            [Page.Results clear; Page.Effects env]).
  - exists env, ([Page.InitializeResolved; Page.Effects env]
                 ++ repeat (Page.Results clear) 31). lazy. reflexivity.
  - reflexivity.
  - right. reflexivity.
  - lazy. reflexivity.
  - lazy. reflexivity.
Defined.

(** The gesture flag is written by the callback in Active only. *)
Lemma step_flag e p p' :
  Page.step e p = Some p' ->
  isTouchingHead (Page.app p') = isTouchingHead (Page.app p)
  \/ stateRef (Page.app p) = ACTIVE.
Proof.
  destruct p as [a q]. destruct e; cbn [Page.step Page.app Page.quad].
  - destruct (wrappedOnResults results a) as [a1|] eqn:Hw; [|discriminate].
    intros [= <-]. cbn. revert Hw.
    unfold wrappedOnResults. rewrite hasPeople_value. cbn [bind].
    change (stateRef (onResults results a)) with (stateRef a).
    destruct (stateRef a); auto.
    all: repeat match goal with
         | |- context [if ?c then _ else _] => destruct c
         end; intros [= <-]; cbn; auto.
  - intros [= <-]. cbn. unfold flushEffects, captureBackgroundEffect.
    destruct (AppState_eqb (appState a) (stateRef a)); [auto|].
    cbn [appState set_stateRef].
    destruct (appState a); auto.
    destruct (videoRef env); [destruct (context2d env)|]; cbn; auto.
  - destruct (initializePending a); [|discriminate]. intros [= <-]. auto.
  - destruct (initializePending a); [|discriminate]. intros [= <-]. auto.
  - destruct (retryRendered a); [|discriminate]. intros [= <-].
    left. cbn. unfold retry, initializeEffect. destruct (videoRef env); auto.
  - unfold Page.onQuad. cbn. destruct q; [|discriminate]. intros [= <-]. auto.
  - destruct (backgroundDataUrl a) eqn:Eb; [|discriminate].
    unfold Page.onQuad. cbn. destruct q; [|discriminate]. intros [= <-]. auto.
  - unfold Page.onQuad. cbn. destruct q; [|discriminate]. intros [= <-]. auto.
  - unfold Page.onQuad. cbn. destruct q; [|discriminate]. intros [= <-]. auto.
Qed.

(** X25. The gesture flag belongs to Active: in a reachable page it
    is set only in the Active state; and in Active each result sets it to
    the evaluator's answer on that result's landmarks ([false] when there
    are none), leaving state, counter and plate alone. *)
Theorem gesture_flag_follows_evaluator (p : Page.t) :
  Page.reachable p ->
  (isTouchingHead (Page.app p) = true -> appState (Page.app p) = ACTIVE)
  /\ (forall r, stateRef (Page.app p) = ACTIVE ->
      exists b a',
        checkFingerOnHead (poseLandmarks r) = Normal b /\
        wrappedOnResults r (Page.app p) = Normal a' /\
        isTouchingHead a' = b /\ appState a' = ACTIVE /\
        noPersonTimerRef a' = noPersonTimerRef (Page.app p) /\
        backgroundDataUrl a' = backgroundDataUrl (Page.app p)).
Proof.
  intros Hr. split.
  - destruct Hr as (env & es & Hrun).
    assert (H : forall es p0 p1,
              Page.invariant p0 ->
              (isTouchingHead (Page.app p0) = true -> appState (Page.app p0) = ACTIVE) ->
              Page.run es p0 = Some p1 ->
              isTouchingHead (Page.app p1) = true -> appState (Page.app p1) = ACTIVE).
    { clear. induction es as [|e es IH]; intros p0 p1 Hinv Hf; cbn [Page.run].
      - intros [= <-]. assumption.
      - destruct (Page.step e p0) as [p2|] eqn:He; [|discriminate].
        apply IH; [eapply invariant_step; eassumption|].
        intros Hf2. destruct (step_flag e p0 p2 He) as [Same | Act].
        + apply (step_active e p0 p2 Hinv); [|assumption].
          apply Hf. congruence.
        + apply (step_active e p0 p2 Hinv); [|assumption].
          destruct Hinv as (_ & _ & _ & _ & I5 & _). auto. }
    apply (H es (Page.initial env) p); auto.
    + apply invariant_initial.
    + unfold Page.initial, initializeEffect. destruct (videoRef env); cbn; discriminate.
  - intros r Hs.
    pose proof (invariant_reachable p Hr) as (_ & _ & _ & _ & I5 & _).
    specialize (I5 Hs).
    destruct (checkFingerOnHead_total (poseLandmarks r)) as [b Hb].
    exists b. unfold wrappedOnResults. rewrite hasPeople_value. cbn [bind].
    change (stateRef (onResults r (Page.app p))) with (stateRef (Page.app p)).
    rewrite Hs.
    destruct (poseLandmarks r) as [l|]; cbn [truthy].
    + rewrite Hb. cbn. eexists. split; [reflexivity|].
      split; [reflexivity|]. cbn. auto.
    + cbn in Hb. injection Hb as <-. eexists. split; [reflexivity|].
      split; [reflexivity|]. cbn. auto.
Qed.

Lemma gesture_flag_follows_evaluator_witness :
  let env := mkEnv (Some (mkVideo (Some O) false false 640 480 0)) true in
  let clear := mkResults 0 None None in
  exists p,
    Page.run ([Page.InitializeResolved; Page.Effects env]
              ++ repeat (Page.Results clear) 31
              ++ [Page.Effects env; Page.Effects env]) (Page.initial env) = Some p /\
    stateRef (Page.app p) = ACTIVE /\
    (isTouchingHead (Page.app p) = true -> appState (Page.app p) = ACTIVE)
    /\ (forall r, stateRef (Page.app p) = ACTIVE ->
        exists b a',
          checkFingerOnHead (poseLandmarks r) = Normal b /\
          wrappedOnResults r (Page.app p) = Normal a' /\
          isTouchingHead a' = b /\ appState a' = ACTIVE /\
          noPersonTimerRef a' = noPersonTimerRef (Page.app p) /\
          backgroundDataUrl a' = backgroundDataUrl (Page.app p)).
Proof.
  intros env clear. eexists.
  split; [lazy; reflexivity|]. split; [reflexivity|].
  apply gesture_flag_follows_evaluator.
  exists env, ([Page.InitializeResolved; Page.Effects env]
               ++ repeat (Page.Results clear) 31
               ++ [Page.Effects env; Page.Effects env]). lazy. reflexivity.
Defined.

Lemma rendered_has_quad_step e p p' :
  (experienceRendered (Page.app p) = true -> Page.quad p <> None) ->
  Page.step e p = Some p' ->
  experienceRendered (Page.app p') = true -> Page.quad p' <> None.
Proof.
  assert (Hrec : forall a q, experienceRendered a = true ->
            Page.quad (Page.reconcile a q) <> None).
  { intros a q H. unfold Page.reconcile. cbn [Page.quad]. rewrite H. discriminate. }
  destruct p as [a q]. intros Hq.
  destruct e; cbn [Page.step Page.app Page.quad].
  - destruct (wrappedOnResults results a) as [a1|]; [|discriminate].
    intros [= <-]. apply Hrec.
  - intros [= <-]. apply Hrec.
  - destruct (initializePending a); [|discriminate]. intros [= <-]. apply Hrec.
  - destruct (initializePending a); [|discriminate]. intros [= <-]. apply Hrec.
  - destruct (retryRendered a); [|discriminate]. intros [= <-]. apply Hrec.
  - unfold Page.onQuad. cbn. destruct q; [|discriminate]. intros [= <-]. discriminate.
  - destruct (backgroundDataUrl a); [|discriminate].
    unfold Page.onQuad. cbn. destruct q; [|discriminate]. intros [= <-]. discriminate.
  - unfold Page.onQuad. cbn. destruct q; [|discriminate]. intros [= <-]. discriminate.
  - unfold Page.onQuad. cbn. destruct q; [|discriminate]. intros [= <-]. discriminate.
Qed.

(** X26. The compositor lives exactly while the page is Active: a
    reachable page has a mounted quad if and only if its state is Active,
    and the step that enters Active mounts a fresh quad, whose reveal
    factor is 0. *)
Theorem quad_lives_while_active (p : Page.t) :
  Page.reachable p ->
  (Page.quad p <> None <-> appState (Page.app p) = ACTIVE)
  /\ (forall e p', Page.step e p = Some p' ->
      appState (Page.app p) <> ACTIVE -> appState (Page.app p') = ACTIVE ->
      Page.quad p' = Some FullScreenQuad.mount /\ Page.revealFactor p' = 0).
Proof.
  intros Hr. pose proof (invariant_reachable p Hr) as Hinv.
  pose proof Hinv as (I1 & I2 & I3 & I4 & I5 & I6 & I7).
  split; [split|].
  - intros Hq. destruct (appState (Page.app p)) eqn:Ea; try reflexivity;
      exfalso; apply Hq, I7; discriminate.
  - intros Ha. destruct Hr as (env & es & Hrun).
    assert (H : forall es p0 p1,
              (experienceRendered (Page.app p0) = true -> Page.quad p0 <> None) ->
              Page.run es p0 = Some p1 ->
              experienceRendered (Page.app p1) = true -> Page.quad p1 <> None).
    { clear. induction es as [|e es IH]; intros p0 p1 H0; cbn [Page.run].
      - intros [= <-]. assumption.
      - destruct (Page.step e p0) as [p2|] eqn:He; [|discriminate].
        apply IH. eapply rendered_has_quad_step; eassumption. }
    apply (H es (Page.initial env) p); auto.
    + unfold Page.initial, initializeEffect. destruct (videoRef env); cbn; discriminate.
    + unfold experienceRendered. rewrite Ha. cbn.
      destruct (backgroundDataUrl (Page.app p)) eqn:Eb; [reflexivity|].
      exfalso. destruct I6 as [_ I6]. apply (I6 Ha). reflexivity.
  - intros e p' He Hna Ha.
    assert (Hq : Page.quad p = None) by (apply I7; assumption).
    assert (Hinv' : Page.invariant p') by (eapply invariant_step; eassumption).
    destruct Hinv' as (_ & _ & _ & _ & _ & I6' & _).
    destruct p as [a q]. cbn in Hq, Hna. subst q.
    assert (Hrec : forall a1, appState a1 = ACTIVE -> backgroundDataUrl a1 <> None ->
              Page.reconcile a1 None = Page.mk a1 (Some FullScreenQuad.mount)).
    { intros a1 H1 H2. unfold Page.reconcile, experienceRendered. rewrite H1.
      destruct (backgroundDataUrl a1); [reflexivity|congruence]. }
    destruct e; cbn [Page.step Page.app Page.quad] in He;
      try (unfold Page.onQuad in He; cbn in He;
           try destruct (backgroundDataUrl a); discriminate).
    + destruct (wrappedOnResults results a) as [a1|]; [|discriminate].
      injection He as <-. cbn in Ha, I6'.
      rewrite Hrec; [split; reflexivity | assumption | apply I6'; assumption].
    + injection He as <-. cbn in Ha, I6'.
      rewrite Hrec; [split; reflexivity | assumption | apply I6'; assumption].
    + destruct (initializePending a); [|discriminate]. injection He as <-.
      cbn in Ha. discriminate.
    + destruct (initializePending a); [|discriminate]. injection He as <-.
      cbn in Ha. discriminate.
    + destruct (retryRendered a); [|discriminate]. injection He as <-.
      cbn in Ha. unfold retry, initializeEffect in Ha.
      destruct (videoRef env); cbn in Ha; congruence.
Qed.

Lemma quad_lives_while_active_witness :
  let env := mkEnv (Some (mkVideo (Some O) false false 640 480 0)) true in
  let clear := mkResults 0 None None in
  exists p,
    Page.run ([Page.InitializeResolved; Page.Effects env]
              ++ repeat (Page.Results clear) 31) (Page.initial env) = Some p /\
    (Page.quad p <> None <-> appState (Page.app p) = ACTIVE)
    /\ (forall e p', Page.step e p = Some p' ->
        appState (Page.app p) <> ACTIVE -> appState (Page.app p') = ACTIVE ->
        Page.quad p' = Some FullScreenQuad.mount /\ Page.revealFactor p' = 0).
Proof.
  intros env clear. eexists. split; [lazy; reflexivity|].
  apply quad_lives_while_active.
  exists env, ([Page.InitializeResolved; Page.Effects env]
               ++ repeat (Page.Results clear) 31). lazy. reflexivity.
Defined.

End AppFurther.
